(** * whatstrax: presence tracking server, allow-list and history sink

    A shallow embedding of the parts of the repository that the
    specification speaks about:

    - [JsString]: the string primitives the sources use ([split], [trim],
      [replace(/\D/g, '')], [includes]);
    - [Auth] and [AuthFiltered]: the two revisions of [auth.ts];
    - [Classifier] and [Correlator]: the presence engine of [tracker.ts],
      which is not among the sources and is modelled from the specification;
    - [Server]: the registry, history cache and event handlers of
      [server.ts].

    Strings are byte strings ([String.string]); integers are [Z];
    the JS [Map] and the [Record<string, any[]>] are [gmap]s. *)

From Stdlib Require Import ZArith Ascii String.
From stdpp Require Import gmap strings list fin_maps.

Open Scope string_scope.
Open Scope list_scope.

(* ===================================================================== *)
(** ** String primitives *)
(* ===================================================================== *)

Module JsString.

(** [process.env.X || d]: an unset variable is [undefined], and both
    [undefined] and the empty string are falsy. *)
Definition orDefault (v : option string) (d : string) : string :=
  match v with
  | Some (String c r) => String c r
  | Some EmptyString => d
  | None => d
  end.

(** [s.split(sep)] for a one-character separator.  The result always has
    at least one element: [''.split(',')] is [['']]. *)
Fixpoint split (sep : ascii) (s : string) : list string :=
  match s with
  | EmptyString => [EmptyString]
  | String c r =>
      if Ascii.eqb c sep then EmptyString :: split sep r
      else match split sep r with
           | h :: t => String c h :: t
           | [] => [String c EmptyString]
           end
  end.

(** The white space and line terminators [trim] removes, as far as they
    lie in the byte range: TAB, LF, VT, FF, CR and SP.  (The white space
    of JS beyond it, such as U+00A0 and U+FEFF, is outside this model.) *)
Definition isWhiteSpace (c : ascii) : bool :=
  let n := nat_of_ascii c in
  ((9 <=? n)%nat && (n <=? 13)%nat) || (n =? 32)%nat.

Fixpoint trimStart (s : string) : string :=
  match s with
  | EmptyString => EmptyString
  | String c r => if isWhiteSpace c then trimStart r else String c r
  end.

Fixpoint trimEnd (s : string) : string :=
  match s with
  | EmptyString => EmptyString
  | String c r =>
      match trimEnd r with
      | EmptyString => if isWhiteSpace c then EmptyString else String c EmptyString
      | String c' r' => String c (String c' r')
      end
  end.

(** [s.trim()] *)
Definition trim (s : string) : string := trimEnd (trimStart s).

(** [arr.includes(x)] on an array of strings. *)
Definition includes (x : string) (arr : list string) : bool :=
  existsb (String.eqb x) arr.

(** The class [\d] and its complement [\D]. *)
Definition isDigit (c : ascii) : bool :=
  let n := nat_of_ascii c in (48 <=? n)%nat && (n <=? 57)%nat.

(** [s.replace(/\D/g, '')]: every character that is not a digit goes. *)
Fixpoint removeNonDigits (s : string) : string :=
  match s with
  | EmptyString => EmptyString
  | String c r =>
      if isDigit c then String c (removeNonDigits r) else removeNonDigits r
  end.

(** [s.split('@')[0]] *)
Definition beforeAt (s : string) : string :=
  match split "@"%char s with
  | h :: _ => h
  | [] => EmptyString
  end.

(** Every character of [s] is a digit. *)
Fixpoint allDigits (s : string) : bool :=
  match s with
  | EmptyString => true
  | String c r => isDigit c && allDigits r
  end.

(** Two strings differ only in non-digit characters: one becomes the
    other by deleting and inserting characters that are not digits. *)
Inductive SameDigits : string -> string -> Prop :=
| same_nil : SameDigits EmptyString EmptyString
| same_keep c a b : SameDigits a b -> SameDigits (String c a) (String c b)
| same_drop_left c a b :
    isDigit c = false -> SameDigits a b -> SameDigits (String c a) b
| same_drop_right c a b :
    isDigit c = false -> SameDigits a b -> SameDigits a (String c b).

End JsString.

(* ===================================================================== *)
(** ** auth.ts: the e-mail allow-list *)
(* ===================================================================== *)

(** Outcome of the Google strategy's verify callback. *)
Inductive Done :=
| DoneError (msg : string)
| DoneRejected (msg : string)
| DoneUser (email : string).

(** The verify callback, as both revisions have it.  [email] is
    [profile.emails?.[0]?.value]. *)
Definition verifyWith (allowed : list string) (email : option string) : Done :=
  match email with
  | None => DoneError "No email found in Google profile"
  | Some EmptyString => DoneError "No email found in Google profile"
  | Some e =>
      if (0 <? List.length allowed)%nat && negb (JsString.includes e allowed)
      then DoneRejected "Unauthorized email"
      else DoneUser e
  end.

(** src/src/auth.ts *)
Module Auth.

Definition ALLOWED_EMAILS (env : option string) : list string :=
  map JsString.trim (JsString.split ","%char (JsString.orDefault env EmptyString)).

Definition verify (env : option string) (email : option string) : Done :=
  verifyWith (ALLOWED_EMAILS env) email.

End Auth.

(** The revision of auth.ts in src/unnamed/part_001. *)
Module AuthFiltered.

Definition ALLOWED_EMAILS (env : option string) : list string :=
  filter (fun e => (0 < String.length e)%nat)
         (map JsString.trim (JsString.split ","%char (JsString.orDefault env EmptyString))).

Definition verify (env : option string) (email : option string) : Done :=
  verifyWith (ALLOWED_EMAILS env) email.

End AuthFiltered.

(* ===================================================================== *)
(** ** The presence classifier (specification section 4.4) *)
(* ===================================================================== *)

(** Modelled from the spec: tracker.ts, which declares the states, is not
    among the sources; section 3 has the enum Online, Standby, Offline. *)
Inductive PresenceState := Online | Standby | Offline.

#[global] Instance PresenceState_eq_dec : EqDecision PresenceState.
Proof. solve_decision. Defined.

Module Classifier.

(** Modelled from the spec: tracker.ts, which holds the classifier, is
    not among the sources.  The configuration surface of section 6:
    the two thresholds, in milliseconds. *)
Record Config := {
  onlineThreshold : Z;
  standbyThreshold : Z
}.

(** Modelled from the spec: the outcome of one probe cycle (section 4.3):
    an RTT sample, or a timeout that carries no sample. *)
Inductive Outcome :=
| Timeout
| RttSample (rttMillis : Z).

(** Modelled from the spec: the classifier state of section 4.4: the
    smoothed RTT (none before the first sample), the current state and
    the last-transition timestamp. *)
Record State := {
  smoothed : option Z;
  state : PresenceState;
  lastTransition : Z
}.

(** Modelled from the spec: a new session has no smoothing state yet. *)
Definition initial (now : Z) : State :=
  {| smoothed := None; state := Offline; lastTransition := now |}.

(** Modelled from the spec: "smoothed <= onlineThreshold -> Online;
    onlineThreshold < smoothed <= standbyThreshold -> Standby;
    smoothed > standbyThreshold -> Offline". *)
Definition classify (cfg : Config) (s : Z) : PresenceState :=
  if (s <=? onlineThreshold cfg)%Z then Online
  else if (s <=? standbyThreshold cfg)%Z then Standby
  else Offline.

(** Modelled from the spec: the last-transition timestamp moves when the
    state changes. *)
Definition transitionTime (old new : PresenceState) (prev now : Z) : Z :=
  if decide (old = new) then prev else now.

Section Smoothing.

(** Modelled from the spec: section 4.4 leaves the filter open
    (exponential moving average or bounded window), so it is a parameter
    taking the previous smoothed value and the new sample to the new
    smoothed value. *)
Variable smooth : option Z -> Z -> Z.

(** Modelled from the spec: the transition rule of section 4.4.  A
    timeout forces Offline and leaves the smoothed value alone; a
    sample updates the smoothed value first and classifies it. *)
Definition step (cfg : Config) (now : Z) (c : State) (o : Outcome) : State :=
  match o with
  | Timeout =>
      {| smoothed := smoothed c;
         state := Offline;
         lastTransition := transitionTime (state c) Offline (lastTransition c) now |}
  | RttSample rtt =>
      let sm := smooth (smoothed c) rtt in
      let st := classify cfg sm in
      {| smoothed := Some sm;
         state := st;
         lastTransition := transitionTime (state c) st (lastTransition c) now |}
  end.

(** Modelled from the spec: the classifier run over a sequence of
    cycle outcomes, each with its timestamp. *)
Fixpoint run (cfg : Config) (c : State) (os : list (Z * Outcome)) : State :=
  match os with
  | [] => c
  | (now, o) :: rest => run cfg (step cfg now c o) rest
  end.

End Smoothing.

(** Modelled from the spec: one of the filters section 4.4 allows, an
    exponential moving average with decay factor [num/den], in integer
    milliseconds; the first sample is taken as it is. *)
Definition ema (num den : Z) (prev : option Z) (rtt : Z) : Z :=
  match prev with
  | None => rtt
  | Some p => ((num * rtt + (den - num) * p) / den)%Z
  end.

(** The thresholds the observed system shows (HelpPage.tsx draws its
    reference lines at 300 and 800). *)
Definition exampleConfig : Config :=
  {| onlineThreshold := 300; standbyThreshold := 800 |}.

End Classifier.

(* ===================================================================== *)
(** ** The RTT correlator and the serialized adapter (sections 4.2, 4.3) *)
(* ===================================================================== *)

Module Correlator.

(** Modelled from the spec: the ProbeRequest of section 3. *)
Record ProbeRequest := {
  id : nat;
  targetIdentity : string;
  sentAt : Z
}.

(** Modelled from the spec: the kind of an AckEvent. *)
Inductive AckKind := Ack | TimeoutKind.

(** Modelled from the spec: the AckEvent of section 3.  [probeId] is
    optional: a transport that cannot correlate by id correlates by
    recency, that is with the occupied slot. *)
Record AckEvent := {
  probeId : option nat;
  observedAt : Z;
  kind : AckKind
}.

(** Modelled from the spec: the RttSample of section 3. *)
Record RttSample := {
  sampleTarget : string;
  rttMillis : Z;
  measuredAt : Z
}.

(** Modelled from the spec: the two ways [sendProbe] fails (section 7). *)
Inductive SendError := TransportUnavailable | AdapterBusy.

(** Modelled from the spec: how a probe cycle completes (section 4.3). *)
Inductive CycleOutcome :=
| CycleSample (r : RttSample)
| CycleTimeout.

(** Modelled from the spec: tracker.ts and signal-tracker.ts are not
    among the sources.  One Target Session as section 4.3 describes it:
    the single slot [outstanding], the id of the next request, and two
    histories kept for the statements below: [inFlight], every request
    handed to the transport and not yet resolved, and [completed], the
    resolved cycles with the id of their request. *)
Record Session := {
  target : string;
  connected : bool;
  outstanding : option ProbeRequest;
  nextId : nat;
  inFlight : list ProbeRequest;
  completed : list (nat * CycleOutcome)
}.

(** Modelled from the spec: a session that has been started, with an
    empty slot. *)
Definition init (t : string) : Session :=
  {| target := t; connected := true; outstanding := None; nextId := 0;
     inFlight := []; completed := [] |}.

(** Modelled from the spec: request [pid] is resolved and leaves the
    transport. *)
Definition dropInFlight (pid : nat) (l : list ProbeRequest) : list ProbeRequest :=
  filter (fun r => id r <> pid) l.

(** Modelled from the spec: [sendProbe] refuses with "busy" while a
    request is outstanding (never queues), fails with
    [TransportUnavailable] when the connection is down, and otherwise
    occupies the slot. *)
Definition sendProbe (now : Z) (s : Session) : (SendError + ProbeRequest) * Session :=
  match outstanding s with
  | Some _ => (inl AdapterBusy, s)
  | None =>
      if connected s then
        let req := {| id := nextId s; targetIdentity := target s; sentAt := now |} in
        (inr req,
         {| target := target s; connected := connected s;
            outstanding := Some req; nextId := S (nextId s);
            inFlight := req :: inFlight s; completed := completed s |})
      else (inl TransportUnavailable, s)
  end.

(** Modelled from the spec: correlation is by identity where the event
    has one, by recency otherwise. *)
Definition matches (ev : AckEvent) (req : ProbeRequest) : bool :=
  match probeId ev with
  | Some pid => Nat.eqb pid (id req)
  | None => true
  end.

(** Modelled from the spec: the slot is cleared and the cycle completes
    with the given outcome. *)
Definition resolve (req : ProbeRequest) (o : CycleOutcome) (s : Session) : Session :=
  {| target := target s; connected := connected s;
     outstanding := None; nextId := nextId s;
     inFlight := dropInFlight (id req) (inFlight s);
     completed := completed s ++ [(id req, o)] |}.

(** Modelled from the spec: a matching ack computes
    [observedAt - sentAt] and clears the slot; an event that matches no
    occupied slot is dropped. *)
Definition onAckEvent (ev : AckEvent) (s : Session) : Session :=
  match outstanding s with
  | Some req =>
      if matches ev req then
        match kind ev with
        | Ack =>
            resolve req
              (CycleSample {| sampleTarget := targetIdentity req;
                              rttMillis := (observedAt ev - sentAt req)%Z;
                              measuredAt := observedAt ev |}) s
        | TimeoutKind => resolve req CycleTimeout s
        end
      else s
  | None => s
  end.

(** Modelled from the spec: the deadline of request [pid] expires; it
    resolves the cycle only if that request still occupies the slot. *)
Definition onDeadline (pid : nat) (s : Session) : Session :=
  onAckEvent {| probeId := Some pid; observedAt := 0; kind := TimeoutKind |} s.

(** Modelled from the spec: [onConnected] and [onDisconnected] suspend
    and resume the session and leave the rest of it alone. *)
Definition setConnected (b : bool) (s : Session) : Session :=
  {| target := target s; connected := b; outstanding := outstanding s;
     nextId := nextId s; inFlight := inFlight s; completed := completed s |}.

(** Modelled from the spec: what can happen to a session, in any order:
    the probe clock ticks, the transport delivers an event, a deadline
    expires, the connection goes and comes back. *)
Inductive Event :=
| Tick (now : Z)
| Transport (ev : AckEvent)
| Deadline (pid : nat)
| Disconnected
| Connected.

(** Modelled from the spec: the session's reaction to one event. *)
Definition handle (s : Session) (e : Event) : Session :=
  match e with
  | Tick now => snd (sendProbe now s)
  | Transport ev => onAckEvent ev s
  | Deadline pid => onDeadline pid s
  | Disconnected => setConnected false s
  | Connected => setConnected true s
  end.

(** Modelled from the spec: an interleaving of events, handled in
    order. *)
Definition run (s : Session) (es : list Event) : Session :=
  fold_left handle es s.

(** The requests that produced an RTT sample, in order of completion. *)
Definition sampleIds (s : Session) : list nat :=
  omap (fun c => match c.2 with CycleSample _ => Some c.1 | CycleTimeout => None end)
       (completed s).

(** What every reachable session satisfies: the requests in flight are
    exactly the occupant of the slot, ids are handed out in increasing
    order, and no request is resolved twice. *)
Record Inv (s : Session) : Prop := {
  inv_flight : inFlight s = option_list (outstanding s);
  inv_slot_id : forall r, outstanding s = Some r -> (id r < nextId s)%nat;
  inv_done_ids : Forall (fun p => (p < nextId s)%nat) (completed s).*1;
  inv_slot_open : forall r, outstanding s = Some r -> id r ∉ (completed s).*1;
  inv_nodup : NoDup (completed s).*1
}.

End Correlator.

(* ===================================================================== *)
(** ** server.ts: registry, history cache and handlers *)
(* ===================================================================== *)

Module Server.

(** ['delete' | 'reaction'] *)
Inductive ProbeMethod := Delete | Reaction.

Inductive Platform := whatsapp.

(** Modelled from the spec: the type of a tracker's update is declared
    in tracker.ts, which is not among the sources; one entry carries a
    state, the RTT and the smoothed RTT (the PresenceSample of
    section 3). *)
Record Device := {
  deviceJid : string;
  deviceState : PresenceState;
  rtt : Z;
  avg : Z
}.

(** Modelled from the spec: the argument of [tracker.onUpdate], declared
    in tracker.ts; the handler reads [devices]. *)
Record UpdateData := {
  devices : list Device
}.

(** [{ jid, platform, ...updateData, timestamp }] *)
Record DataPoint := {
  dpJid : string;
  dpPlatform : Platform;
  dpUpdate : UpdateData;
  timestamp : Z
}.

(** Modelled from the spec: the class WhatsAppTracker of tracker.ts is
    not among the sources; the server constructs it with the socket and
    the jid, sets its probe method, and starts and stops it.  The object
    keeps the socket it was constructed with, whether its probe clock
    runs, and the classifier state of section 4.4. *)
Record WhatsAppTracker := {
  trackerSock : option nat;
  trackerJid : string;
  probeMethod : ProbeMethod;
  isTracking : bool;
  classifier : Classifier.State
}.

(** [interface TrackerEntry]; [tracker] is a reference to the object. *)
Record TrackerEntry := {
  tracker : nat;
  platform : Platform
}.

(** One element of what [sock.onWhatsApp] resolves to. *)
Record OnWhatsAppResult := {
  exists_ : bool;
  jid : string;
  notify : option string
}.

(** The module state of server.ts: [sock] is the identity of the current
    socket object ([None] while undefined), [objects] the tracker objects
    by reference, [trackers] the registry, and the two files under
    DATA_DIR with what was last written to them. *)
Record State := {
  sock : option nat;
  socketsMade : nat;
  isWhatsAppConnected : bool;
  globalProbeMethod : ProbeMethod;
  currentWhatsAppQr : option string;
  objects : gmap nat WhatsAppTracker;
  trackers : gmap string TrackerEntry;
  historyCache : gmap string (list DataPoint);
  initialContacts : list string;
  contactsFile : option (gset string);
  historyFile : option (gmap string (list DataPoint))
}.

(** Events sent to the clients. *)
Inductive Emitted :=
| EvQr (qr : string)
| EvConnectionOpen
| EvError (jid message : string)
| EvTrackerUpdate (dp : DataPoint) (isHistory : bool)
| EvContactAdded (jid number : string)
| EvProfilePic (jid : string) (url : option string)
| EvContactName (jid name : string)
| EvContactRemoved (jid : string).

Inductive Effect :=
| IoEmit (e : Emitted)
| SocketEmit (e : Emitted)
| ConsoleLog (msg : string)
| ConsoleError (msg : string).

(** How a call completes: normally, or by throwing. *)
Inductive Completion (A : Type) :=
| Normal (a : A)
| Thrown (err : string).
Arguments Normal {A} a.
Arguments Thrown {A} err.

(** What the outside answers during one run of a handler: WhatsApp
    through the socket with the given identity, the disk, the clock. *)
Record World := {
  onWhatsApp : nat -> string -> Completion (option (list OnWhatsAppResult));
  getProfilePicture : string -> Completion (option string);
  writeHistoryFile : Completion unit;
  writeContactsFile : Completion unit;
  dateNow : Z
}.

(** Handlers run on the state, log their effects, and may throw. *)
Definition M (A : Type) : Type := State -> Completion A * State * list Effect.

Definition ret {A} (a : A) : M A := fun s => (Normal a, s, []).

Definition bind {A B} (m : M A) (k : A -> M B) : M B := fun s =>
  match m s with
  | (Normal a, s1, out1) =>
      match k a s1 with (r, s2, out2) => (r, s2, out1 ++ out2) end
  | (Thrown e, s1, out1) => (Thrown e, s1, out1)
  end.

Definition tryCatch {A} (m : M A) (h : string -> M A) : M A := fun s =>
  match m s with
  | (Normal a, s1, out1) => (Normal a, s1, out1)
  | (Thrown e, s1, out1) =>
      match h e s1 with (r, s2, out2) => (r, s2, out1 ++ out2) end
  end.

Definition get : M State := fun s => (Normal s, s, []).
Definition put (s' : State) : M unit := fun _ => (Normal tt, s', []).
Definition effect (e : Effect) : M unit := fun s => (Normal tt, s, [e]).
Definition await {A} (c : Completion A) : M A := fun s => (c, s, []).
Definition when (b : bool) (m : M unit) : M unit := if b then m else ret tt.

Notation "x <- m ;; k" := (bind m (fun x => k))
  (at level 100, m at level 50, k at level 200, right associativity).
Notation "m ;;; k" := (bind m (fun _ => k))
  (at level 100, k at level 200, right associativity).

Fixpoint forEach {A} (l : list A) (f : A -> M unit) : M unit :=
  match l with
  | [] => ret tt
  | x :: rest => f x ;;; forEach rest f
  end.

Definition setHistoryCache (h : gmap string (list DataPoint)) (s : State) : State :=
  {| sock := sock s; socketsMade := socketsMade s;
     isWhatsAppConnected := isWhatsAppConnected s;
     globalProbeMethod := globalProbeMethod s;
     currentWhatsAppQr := currentWhatsAppQr s;
     objects := objects s; trackers := trackers s;
     historyCache := h; initialContacts := initialContacts s;
     contactsFile := contactsFile s; historyFile := historyFile s |}.

Definition setHistoryFile (f : option (gmap string (list DataPoint))) (s : State) : State :=
  {| sock := sock s; socketsMade := socketsMade s;
     isWhatsAppConnected := isWhatsAppConnected s;
     globalProbeMethod := globalProbeMethod s;
     currentWhatsAppQr := currentWhatsAppQr s;
     objects := objects s; trackers := trackers s;
     historyCache := historyCache s; initialContacts := initialContacts s;
     contactsFile := contactsFile s; historyFile := f |}.

Definition setContactsFile (f : option (gset string)) (s : State) : State :=
  {| sock := sock s; socketsMade := socketsMade s;
     isWhatsAppConnected := isWhatsAppConnected s;
     globalProbeMethod := globalProbeMethod s;
     currentWhatsAppQr := currentWhatsAppQr s;
     objects := objects s; trackers := trackers s;
     historyCache := historyCache s; initialContacts := initialContacts s;
     contactsFile := f; historyFile := historyFile s |}.

Definition setRegistry (o : gmap nat WhatsAppTracker) (t : gmap string TrackerEntry)
    (s : State) : State :=
  {| sock := sock s; socketsMade := socketsMade s;
     isWhatsAppConnected := isWhatsAppConnected s;
     globalProbeMethod := globalProbeMethod s;
     currentWhatsAppQr := currentWhatsAppQr s;
     objects := o; trackers := t;
     historyCache := historyCache s; initialContacts := initialContacts s;
     contactsFile := contactsFile s; historyFile := historyFile s |}.

Definition setConnection (sk : option nat) (made : nat) (up : bool)
    (qr : option string) (s : State) : State :=
  {| sock := sk; socketsMade := made;
     isWhatsAppConnected := up;
     globalProbeMethod := globalProbeMethod s;
     currentWhatsAppQr := qr;
     objects := objects s; trackers := trackers s;
     historyCache := historyCache s; initialContacts := initialContacts s;
     contactsFile := contactsFile s; historyFile := historyFile s |}.

(** [saveContacts]: the ids of the registry go to contacts.json; a failed
    write is logged.  (The order of the entries is not modelled.) *)
Definition saveContacts (w : World) : M unit :=
  tryCatch
    (s <- get ;;
     await (writeContactsFile w) ;;;
     put (setContactsFile (Some (dom (trackers s))) s))
    (fun _ => effect (ConsoleError "Failed to save contacts:")).

(** [saveHistory] *)
Definition saveHistory (w : World) : M unit :=
  tryCatch
    (s <- get ;;
     await (writeHistoryFile w) ;;;
     put (setHistoryFile (Some (historyCache s)) s))
    (fun _ => effect (ConsoleError "Failed to save history:")).

(** The constant in [if (historyCache[jid].length > 1000)]. *)
Definition HISTORY_LIMIT : nat := 1000.

(** The test is strict and comes before the push, so an array holds up
    to one entry more than the constant. *)
Definition historyCap : nat := S HISTORY_LIMIT.

(** The array [historyCache[jid]] after the three statements that
    touch it: created empty when missing, shifted when longer than the
    limit, then pushed to. *)
Definition pushBounded (old : option (list DataPoint)) (dataPoint : DataPoint)
    : list DataPoint :=
  let arr := match old with Some a => a | None => [] end in
  let arr := if (HISTORY_LIMIT <? List.length arr)%nat then tail arr else arr in
  arr ++ [dataPoint].

(** [appendHistory] *)
Definition appendHistory (w : World) (jid : string) (dataPoint : DataPoint) : M unit :=
  s <- get ;;
  put (setHistoryCache
         (<[jid := pushBounded (historyCache s !! jid) dataPoint]> (historyCache s)) s) ;;;
  saveHistory w.

(** Modelled from the spec: [new WhatsAppTracker(sock, jid)]; the object
    holds the socket it is given and starts with fresh smoothing state.
    (The server sets the probe method right after construction.) *)
Definition newTracker (sk : option nat) (j : string) (now : Z) : WhatsAppTracker :=
  {| trackerSock := sk; trackerJid := j; probeMethod := Delete;
     isTracking := false; classifier := Classifier.initial now |}.

(** Modelled from the spec: [tracker.setProbeMethod(method)]. *)
Definition setProbeMethod (m : ProbeMethod) (t : WhatsAppTracker) : WhatsAppTracker :=
  {| trackerSock := trackerSock t; trackerJid := trackerJid t; probeMethod := m;
     isTracking := isTracking t; classifier := classifier t |}.

(** Modelled from the spec: [tracker.startTracking()] starts the probe
    clock. *)
Definition startTracking (t : WhatsAppTracker) : WhatsAppTracker :=
  {| trackerSock := trackerSock t; trackerJid := trackerJid t;
     probeMethod := probeMethod t;
     isTracking := true; classifier := classifier t |}.

(** Modelled from the spec: [tracker.stopTracking()] cancels the probe
    clock (section 4.5). *)
Definition stopTracking (t : WhatsAppTracker) : WhatsAppTracker :=
  {| trackerSock := trackerSock t; trackerJid := trackerJid t;
     probeMethod := probeMethod t;
     isTracking := false; classifier := classifier t |}.

(** A method call on the tracker object behind a reference. *)
Definition callTracker (ref : nat) (f : WhatsAppTracker -> WhatsAppTracker) : M unit :=
  s <- get ;;
  put (setRegistry (alter f ref (objects s)) (trackers s) s).

(** [const targetJid = number.replace(/\D/g, '') + '@s.whatsapp.net'] *)
Definition cleanNumberOf (number : string) : string :=
  JsString.removeNonDigits number.

Definition targetJidOf (number : string) : string :=
  cleanNumberOf number +:+ "@s.whatsapp.net".

(** [sock.onWhatsApp(jid)]; a call on an undefined [sock] throws. *)
Definition callOnWhatsApp (w : World) (j : string)
    : M (option (list OnWhatsAppResult)) :=
  s <- get ;;
  match sock s with
  | Some sk => await (onWhatsApp w sk j)
  | None => await (Thrown "TypeError")
  end.

(** "Send existing history if available" *)
Definition replayHistory (j : string) : M unit :=
  s <- get ;;
  match historyCache s !! j with
  | Some h => forEach h (fun data => effect (IoEmit (EvTrackerUpdate data true)))
  | None => ret tt
  end.

(** [contactInfo[0].notify] when it is there and not empty. *)
Definition notifyName (info : option (list OnWhatsAppResult)) (fallback : string) : string :=
  match info with
  | Some (first :: _) =>
      match notify first with
      | Some (String c r) => String c r
      | _ => fallback
      end
  | _ => fallback
  end.

(** The body of [startTrackingWhatsApp] after its duplicate guard: the
    [try] block and its [catch].  Its [await]s are taken in one go, with
    no other handler running in between. *)
Definition verifyAndTrack (w : World) (number : string) (emitError : bool) : M unit :=
  let cleanNumber := cleanNumberOf number in
  let targetJid := targetJidOf number in
  let notOnWhatsApp :=
    when emitError (effect (IoEmit (EvError targetJid "Number not on WhatsApp"))) in
  tryCatch
    (results <- callOnWhatsApp w targetJid ;;
     match results with
     | Some (result :: _) =>
         if exists_ result then
           s <- get ;;
           let ref := fresh (dom (objects s)) in
           let t := setProbeMethod (globalProbeMethod s)
                      (newTracker (sock s) (jid result) (dateNow w)) in
           put (setRegistry (<[ref := t]> (objects s))
                  (<[jid result := {| tracker := ref; platform := whatsapp |}]> (trackers s))
                  s) ;;;
           replayHistory (jid result) ;;;
           callTracker ref startTracking ;;;
           ppUrl <- await (getProfilePicture w (jid result)) ;;
           contactName <-
             tryCatch
               (info <- callOnWhatsApp w (jid result) ;;
                ret (notifyName info cleanNumber))
               (fun _ => ret cleanNumber) ;;
           effect (IoEmit (EvContactAdded (jid result) cleanNumber)) ;;;
           effect (IoEmit (EvProfilePic (jid result) ppUrl)) ;;;
           effect (IoEmit (EvContactName (jid result) contactName)) ;;;
           saveContacts w
         else notOnWhatsApp
     | _ => notOnWhatsApp
     end)
    (fun err =>
       effect (ConsoleError err) ;;;
       when emitError (effect (IoEmit (EvError targetJid "Verification failed")))).

(** [startTrackingWhatsApp(number, emitError = true)] *)
Definition startTrackingWhatsApp (w : World) (number : string) (emitError : bool)
    : M unit :=
  let targetJid := targetJidOf number in
  s <- get ;;
  match trackers s !! targetJid with
  | Some _ =>
      when emitError
        (effect (IoEmit (EvError targetJid "Already tracking this contact")))
  | None => verifyAndTrack w number emitError
  end.

(** The closure assigned to [tracker.onUpdate]; [j] is the [result.jid]
    it captured. *)
Definition onUpdate (w : World) (j : string) (updateData : UpdateData) : M unit :=
  let dataPoint :=
    {| dpJid := j; dpPlatform := whatsapp; dpUpdate := updateData;
       timestamp := dateNow w |} in
  when (0 <? List.length (devices updateData))%nat (appendHistory w j dataPoint) ;;;
  effect (IoEmit (EvTrackerUpdate dataPoint false)).

(** Modelled from the spec: a tracker object reports a sample through
    its callback only while its probe clock runs; "after stop(), the
    session emits no further samples".  The callback itself, [onUpdate],
    has no such test.  What the tracker does to its own state before it
    reports (section 4.4) happens in tracker.ts and is not modelled: an
    object of the store keeps the classifier it was made with. *)
Definition trackerReports (w : World) (ref : nat) (updateData : UpdateData) : M unit :=
  s <- get ;;
  match objects s !! ref with
  | Some t => if isTracking t then onUpdate w (trackerJid t) updateData else ret tt
  | None => ret tt
  end.

Inductive Connection := ConnClose | ConnOpen | ConnConnecting.

(** The argument of the ['connection.update'] handler; the status is
    [lastDisconnect?.error?.output?.statusCode]. *)
Record ConnectionUpdate := {
  connection : option Connection;
  lastDisconnectStatus : option Z;
  qr : option string
}.

(** Baileys' [DisconnectReason.loggedOut]. *)
Definition loggedOut : Z := 401.

(** [connectToWhatsApp]: [sock] becomes a socket object made anew. *)
Definition connectToWhatsApp : M unit :=
  s <- get ;;
  put (setConnection (Some (socketsMade s)) (S (socketsMade s))
         (isWhatsAppConnected s) (currentWhatsAppQr s) s).

(** "Restore trackers": the [forEach] runs every call up to its first
    [await], so both guards read the registry as it is when the
    connection opens; the bodies then run one after the other. *)
Definition restoreTrackers (w : World) : M unit :=
  s <- get ;;
  let missing := filter (fun j => trackers s !! j = None) (initialContacts s) in
  forEach missing (fun j => effect (ConsoleLog ("Restoring tracker for " +:+ j))) ;;;
  let pending :=
    filter (fun j => trackers s !! targetJidOf (JsString.beforeAt j) = None) missing in
  forEach pending (fun j => verifyAndTrack w (JsString.beforeAt j) false).

(** The ['connection.update'] handler. *)
Definition onConnectionUpdate (w : World) (u : ConnectionUpdate) : M unit :=
  match qr u with
  | Some (String c r) =>
      effect (ConsoleLog "QR Code generated") ;;;
      s <- get ;;
      put (setConnection (sock s) (socketsMade s) (isWhatsAppConnected s)
             (Some (String c r)) s) ;;;
      effect (IoEmit (EvQr (String c r)))
  | _ => ret tt
  end ;;;
  match connection u with
  | Some ConnClose =>
      s <- get ;;
      put (setConnection (sock s) (socketsMade s) false None s) ;;;
      let shouldReconnect := negb (bool_decide (lastDisconnectStatus u = Some loggedOut)) in
      effect (ConsoleLog "connection closed, reconnecting ") ;;;
      when shouldReconnect connectToWhatsApp
  | Some ConnOpen =>
      s <- get ;;
      put (setConnection (sock s) (socketsMade s) true None s) ;;;
      effect (ConsoleLog "opened connection") ;;;
      effect (IoEmit EvConnectionOpen) ;;;
      restoreTrackers w
  | _ => ret tt
  end.

(** The payload of ['add-contact']: a number, or an object with one. *)
Inductive AddContactData :=
| AddNumber (number : string)
| AddObject (number : string) (p : Platform).

Definition numberOf (data : AddContactData) : string :=
  match data with
  | AddNumber n => n
  | AddObject n _ => n
  end.

(** The ['add-contact'] handler. *)
Definition onAddContact (w : World) (data : AddContactData) : M unit :=
  startTrackingWhatsApp w (numberOf data) true.

(** The ['remove-contact'] handler. *)
Definition onRemoveContact (w : World) (j : string) : M unit :=
  s <- get ;;
  match trackers s !! j with
  | Some entry =>
      callTracker (tracker entry) stopTracking ;;;
      s1 <- get ;;
      put (setRegistry (objects s1) (delete j (trackers s1)) s1) ;;;
      effect (SocketEmit (EvContactRemoved j)) ;;;
      saveContacts w
  | None => ret tt
  end.

(** The state when the module has loaded: nothing tracked, the history
    and the contacts as read from DATA_DIR. *)
Definition initialState (history : gmap string (list DataPoint))
    (contacts : list string) : State :=
  {| sock := None; socketsMade := 0; isWhatsAppConnected := false;
     globalProbeMethod := Delete; currentWhatsAppQr := None;
     objects := ∅; trackers := ∅; historyCache := history;
     initialContacts := contacts;
     contactsFile := None; historyFile := None |}.

(** The length of [historyCache[jid]], 0 when there is none. *)
Definition historyLength (s : State) (j : string) : nat :=
  match historyCache s !! j with
  | Some h => List.length h
  | None => 0%nat
  end.

(** A sequence of appends, each with what the disk does at that time. *)
Definition appendAll (appends : list (World * string * DataPoint)) : M unit :=
  forEach appends (fun a => appendHistory a.1.1 a.1.2 a.2).

(** An effect that tells a client about an error. *)
Definition isErrorEvent (e : Effect) : bool :=
  match e with
  | IoEmit (EvError _ _) => true
  | SocketEmit (EvError _ _) => true
  | _ => false
  end.

(** The two connection updates of a reconnection: the socket closes
    with the given status, and the next one opens. *)
Definition closeUpdate (status : option Z) : ConnectionUpdate :=
  {| connection := Some ConnClose; lastDisconnectStatus := status; qr := None |}.

Definition openUpdate : ConnectionUpdate :=
  {| connection := Some ConnOpen; lastDisconnectStatus := None; qr := None |}.

Definition reconnect (w : World) (status : option Z) : M unit :=
  onConnectionUpdate w (closeUpdate status) ;;;
  onConnectionUpdate w openUpdate.

(** The state when the close handler is done: the flags are cleared,
    and unless the account was logged out [sock] is a socket made
    anew. *)
Definition afterClose (status : option Z) (s : State) : State :=
  if bool_decide (status = Some loggedOut)
  then setConnection (sock s) (socketsMade s) false None s
  else setConnection (Some (socketsMade s)) (S (socketsMade s)) false None s.

(** The state, the log and the completion of a run. *)
Definition stateOf {A} (r : Completion A * State * list Effect) : State := r.1.2.
Definition effectsOf {A} (r : Completion A * State * list Effect) : list Effect := r.2.
Definition returns {A} (r : Completion A * State * list Effect) : bool :=
  match r.1.1 with Normal _ => true | Thrown _ => false end.

(** A computation keeps [I] when it takes states where [I] holds to
    states where [I] holds, however it completes. *)
Definition Keeps {A} (I : State -> Prop) (m : M A) : Prop :=
  forall s, I s -> I (stateOf (m s)).

(** A session, seen from the server: the registry entry of [j] and the
    tracker object behind it. *)
Definition Tracked (j : string) (e : TrackerEntry) (t : WhatsAppTracker)
    (s : State) : Prop :=
  trackers s !! j = Some e /\ objects s !! tracker e = Some t.

End Server.

(* ===================================================================== *)
(** ** Worlds and states used in the examples *)
(* ===================================================================== *)

Module Scenario.

Import Server.

(** Every number is on WhatsApp under the jid asked for; the disk works. *)
Definition goodWorld : World :=
  {| onWhatsApp := fun _ j =>
       Normal (Some [{| exists_ := true; jid := j; notify := None |}]);
     getProfilePicture := fun _ => Normal None;
     writeHistoryFile := Normal tt;
     writeContactsFile := Normal tt;
     dateNow := 1000 |}.

(** The same, with a disk that refuses every write. *)
Definition fullDisk : World :=
  {| onWhatsApp := onWhatsApp goodWorld;
     getProfilePicture := getProfilePicture goodWorld;
     writeHistoryFile := Thrown "ENOSPC";
     writeContactsFile := Thrown "ENOSPC";
     dateNow := 1000 |}.

(** The server after it has loaded with no saved data, called
    [connectToWhatsApp] and seen the connection open. *)
Definition connected : State :=
  stateOf ((connectToWhatsApp ;;; onConnectionUpdate goodWorld openUpdate)
             (initialState ∅ [])).

(** ... and after ['add-contact'] with a formatted number. *)
Definition tracking : State :=
  stateOf (onAddContact goodWorld (AddNumber "+1 (234) 567-8900") connected).

(** The tracker object that session owns. *)
Definition itsTracker : WhatsAppTracker :=
  {| trackerSock := Some 0%nat; trackerJid := "12345678900@s.whatsapp.net";
     probeMethod := Delete; isTracking := true;
     classifier := Classifier.initial 1000 |}.

(** The same server, started with two saved contacts of which the
    second is not tracked at present. *)
Definition restoring : State :=
  {| sock := sock tracking; socketsMade := socketsMade tracking;
     isWhatsAppConnected := isWhatsAppConnected tracking;
     globalProbeMethod := globalProbeMethod tracking;
     currentWhatsAppQr := currentWhatsAppQr tracking;
     objects := objects tracking; trackers := trackers tracking;
     historyCache := historyCache tracking;
     initialContacts := ["12345678900@s.whatsapp.net"; "4915112345678@s.whatsapp.net"];
     contactsFile := contactsFile tracking; historyFile := historyFile tracking |}.

Definition sample : UpdateData :=
  {| devices := [{| deviceJid := "12345678900:1@s.whatsapp.net";
                    deviceState := Online; rtt := 180; avg := 180 |}] |}.

Definition point : DataPoint :=
  {| dpJid := "12345678900@s.whatsapp.net"; dpPlatform := whatsapp;
     dpUpdate := sample; timestamp := 1000 |}.

End Scenario.

(* ===================================================================== *)
(** ** Two statements of the specification that server.ts does not meet *)
(* ===================================================================== *)

Module Claim.

Import Server.

(** "For every remove-contact request naming a target identity that is
    not in the registry, the operation is surfaced as an explicit
    rejection, not silently ignored": the handler tells the client
    about an error. *)
Definition TargetNotFoundSurfaced : Prop :=
  forall (w : World) (s : State) (j : string),
    trackers s !! j = None ->
    exists e, e ∈ effectsOf (onRemoveContact w j s) /\ isErrorEvent e = true.

(** "After the transport reports reconnection the session resumes
    issuing probes automatically with its classifier state unchanged":
    for a session that was running on the socket in use when it closed,
    the session is still registered, its tracker runs with the
    classifier state it had, and the tracker holds the socket of the
    new connection, the only one probes can go out on. *)
Definition ReconnectionResumes : Prop :=
  forall (w : World) (s : State) (status : option Z) (j : string)
         (e : TrackerEntry) (t : WhatsAppTracker),
    status <> Some loggedOut ->
    trackers s !! j = Some e ->
    objects s !! tracker e = Some t ->
    isTracking t = true ->
    trackerSock t = sock s ->
    let s' := stateOf (reconnect w status s) in
    exists t',
      trackers s' !! j = Some e /\
      objects s' !! tracker e = Some t' /\
      classifier t' = classifier t /\
      isTracking t' = true /\
      trackerSock t' = sock s'.

End Claim.

(* ===================================================================== *)
(** ** server.ts: what the history cache holds *)
(* ===================================================================== *)

Module History.

Import Server.

(** [historyCache[jid]] read as an array, a missing one being empty. *)
Definition historyOf (s : State) (j : string) : list DataPoint :=
  default [] (historyCache s !! j).

(** The last [n] elements of an array, in order. *)
Definition lastN {A} (n : nat) (l : list A) : list A :=
  drop (List.length l - n) l.

(** The data points a sequence of appends carries for one contact. *)
Definition pointsFor (j : string) (appends : list (World * string * DataPoint))
    : list DataPoint :=
  (filter (fun a => a.1.2 = j) appends).*2.


End History.

(* ===================================================================== *)
(** ** server.ts: the outcome of a successful verification *)
(* ===================================================================== *)

Module Track.

Import Server.

(** A run with [o] logged before it. *)
Definition prepend {A} (o : list Effect) (r : Completion A * State * list Effect)
    : Completion A * State * list Effect :=
  (r.1.1, r.1.2, o ++ r.2).

(** The tracker [startTrackingWhatsApp] has made, configured and started
    when WhatsApp has answered with [res]. *)
Definition trackerFor (w : World) (res : OnWhatsAppResult) (s : State)
    : WhatsAppTracker :=
  startTracking
    (setProbeMethod (globalProbeMethod s) (newTracker (sock s) (jid res) (dateNow w))).

(** The reference the new tracker object gets. *)
Definition newRef (s : State) : nat := fresh (dom (objects s)).

(** The state once [trackers.set(result.jid, ...)] and
    [tracker.startTracking()] are done. *)
Definition registered (w : World) (res : OnWhatsAppResult) (s : State) : State :=
  setRegistry (<[newRef s := trackerFor w res s]> (objects s))
    (<[jid res := {| tracker := newRef s; platform := whatsapp |}]> (trackers s)) s.

(** The cached history as it is sent to the clients, oldest first. *)
Definition replayed (s : State) (j : string) : list Effect :=
  map (fun d => IoEmit (EvTrackerUpdate d true)) (default [] (historyCache s !! j)).

(** The name sent with ['contact-name']: the [notify] of a second lookup,
    the clean number when there is none or the lookup fails. *)
Definition contactNameOf (w : World) (sk : nat) (res : OnWhatsAppResult)
    (cleanNumber : string) : string :=
  match onWhatsApp w sk (jid res) with
  | Normal info => notifyName info cleanNumber
  | Thrown _ => cleanNumber
  end.

(** What [contacts.json] holds, as [loadContacts] would read it: nothing
    when it was never written. *)
Definition savedContacts (s : State) : gset string :=
  default ∅ (contactsFile s).

End Track.

(* ===================================================================== *)
(** ** server.ts: the answer of WhatsApp to a verification *)
(* ===================================================================== *)

Module Lookup.

Import Server.

(** What [startTrackingWhatsApp] makes of [sock.onWhatsApp(targetJid)]:
    the first result when there is one and it exists, a throw (of the
    call, or of calling on an undefined [sock]), or nothing. *)
Inductive Answer :=
| Found (res : OnWhatsAppResult)
| NotFound
| Failed (err : string).

Definition answer (w : World) (s : State) (number : string) : Answer :=
  match sock s with
  | None => Failed "TypeError"
  | Some sk =>
      match onWhatsApp w sk (targetJidOf number) with
      | Thrown err => Failed err
      | Normal (Some (res :: _)) => if exists_ res then Found res else NotFound
      | Normal _ => NotFound
      end
  end.

End Lookup.

(* ===================================================================== *)
(** ** More worlds for the examples *)
(* ===================================================================== *)

Module Worlds.

Import Server.

(** The profile picture cannot be fetched. *)
Definition noPicture : World :=
  {| onWhatsApp := onWhatsApp Scenario.goodWorld;
     getProfilePicture := fun _ => Thrown "not-authorized";
     writeHistoryFile := Normal tt;
     writeContactsFile := Normal tt;
     dateNow := 2000 |}.

(** WhatsApp does not know any number. *)
Definition nobodyThere : World :=
  {| onWhatsApp := fun _ _ => Normal (Some []);
     getProfilePicture := fun _ => Normal None;
     writeHistoryFile := Normal tt;
     writeContactsFile := Normal tt;
     dateNow := 2000 |}.

(** WhatsApp reports every number under one and the same jid. *)
Definition renaming : World :=
  {| onWhatsApp := fun _ _ =>
       Normal (Some [{| exists_ := true; jid := "12345678900@s.whatsapp.net";
                        notify := Some "Ada" |}]);
     getProfilePicture := fun _ => Normal (Some "https://pps.example/ada.jpg");
     writeHistoryFile := Normal tt;
     writeContactsFile := Normal tt;
     dateNow := 2000 |}.

(** The server that tracks 12345678900, with one data point of that
    contact in the cache. *)
Definition withHistory : State :=
  setHistoryCache {[ "12345678900@s.whatsapp.net" := [Scenario.point] ]}
    Scenario.tracking.

(** The same, with a history of 1005 data points read from a file that
    something else wrote. *)
Definition oversized : State :=
  setHistoryCache {[ "12345678900@s.whatsapp.net" := repeat Scenario.point 1005 ]}
    Scenario.tracking.

End Worlds.

(* ===================================================================== *)
(** ** server.ts: the client-facing handlers that only read or configure *)
(* ===================================================================== *)

Module Control.

Import Server.

(** What is sent besides the events of [Emitted]: ['probe-method'] and
    ['tracked-contacts']. *)
Inductive Payload :=
| Event (e : Emitted)
| ProbeMethodIs (m : ProbeMethod)
| TrackedContacts (l : list (string * Platform)).

(** [io.emit] goes to every client, [socket.emit] to the one at hand. *)
Inductive Sent :=
| ToAll (p : Payload)
| ToClient (p : Payload).

(** The run-time test [method !== 'delete' && method !== 'reaction']. *)
Definition parseProbeMethod (method : string) : option ProbeMethod :=
  if String.eqb method "delete" then Some Delete
  else if String.eqb method "reaction" then Some Reaction
  else None.

Definition setGlobalProbeMethod (m : ProbeMethod) (s : State) : State :=
  {| sock := sock s; socketsMade := socketsMade s;
     isWhatsAppConnected := isWhatsAppConnected s;
     globalProbeMethod := m;
     currentWhatsAppQr := currentWhatsAppQr s;
     objects := objects s; trackers := trackers s;
     historyCache := historyCache s; initialContacts := initialContacts s;
     contactsFile := contactsFile s; historyFile := historyFile s |}.

(** [for (const entry of trackers.values())
      entry.tracker.setProbeMethod(method)] *)
Definition setMethodOfRegistered (m : ProbeMethod) (s : State)
    : gmap nat WhatsAppTracker :=
  foldr (fun je o => alter (setProbeMethod m) (tracker je.2) o)
        (objects s) (map_to_list (trackers s)).

(** The ['set-probe-method'] handler. *)
Definition onSetProbeMethod (method : string) (s : State) : State * list Sent :=
  match parseProbeMethod method with
  | None => (s, [])
  | Some m =>
      (setGlobalProbeMethod m (setRegistry (setMethodOfRegistered m s) (trackers s) s),
       [ToAll (ProbeMethodIs m)])
  end.

(** [Array.from(trackers.entries()).map(([id, entry]) =>
      ({ id, platform: entry.platform }))].  (The order of the entries is
    not modelled.) *)
Definition trackedList (s : State) : list (string * Platform) :=
  (fun je => (je.1, platform je.2)) <$> map_to_list (trackers s).

(** "Resend history for all contacts" *)
Definition resendHistory (s : State) (c : string * Platform) : list Sent :=
  match historyCache s !! c.1 with
  | Some h => map (fun d => ToClient (Event (EvTrackerUpdate d true))) h
  | None => []
  end.

(** What [io.on('connection', ...)] sends to the client that connected.
    (Its log line and the registration of the handlers are left out.) *)
Definition onConnection (s : State) : list Sent :=
  match currentWhatsAppQr s with
  | Some (String c r) => [ToClient (Event (EvQr (String c r)))]
  | _ => []
  end
  ++ (if isWhatsAppConnected s then [ToClient (Event EvConnectionOpen)] else [])
  ++ [ToClient (ProbeMethodIs (globalProbeMethod s));
      ToClient (TrackedContacts (trackedList s))]
  ++ flat_map (resendHistory s) (trackedList s).

(** The ['get-tracked-contacts'] handler. *)
Definition onGetTrackedContacts (s : State) : list Sent :=
  [ToClient (TrackedContacts (trackedList s))].

End Control.

(* ===================================================================== *)
(** ** App.tsx and Login.tsx: the connection state of the client *)
(* ===================================================================== *)

Module Client.

(** [interface ConnectionState] *)
Record ConnectionState := {
  whatsapp : bool;
  whatsappQr : option string
}.

(** The two pieces of state of [App] that the socket handlers set. *)
Record AppState := {
  isConnected : bool;
  connectionState : ConnectionState
}.

(** The initial values of the two [useState]s. *)
Definition initial : AppState :=
  {| isConnected := false;
     connectionState := {| whatsapp := false; whatsappQr := None |} |}.

(** The socket events [App] listens to; it has no handler for the
    others. *)
Inductive SocketEvent :=
| Connect
| Disconnect
| Qr (qr : string)
| ConnectionOpen
| Unhandled.

(** [onConnect], [onDisconnect], [onWhatsAppQr] and
    [onWhatsAppConnectionOpen]. *)
Definition on (a : AppState) (e : SocketEvent) : AppState :=
  match e with
  | Connect =>
      {| isConnected := true; connectionState := connectionState a |}
  | Disconnect =>
      {| isConnected := false;
         connectionState := {| whatsapp := false; whatsappQr := None |} |}
  | Qr qr =>
      {| isConnected := isConnected a;
         connectionState := {| whatsapp := whatsapp (connectionState a);
                               whatsappQr := Some qr |} |}
  | ConnectionOpen =>
      {| isConnected := isConnected a;
         connectionState := {| whatsapp := true; whatsappQr := None |} |}
  | Unhandled => a
  end.

Definition run (a : AppState) (es : list SocketEvent) : AppState :=
  fold_left on es a.

(** What the [Login] component shows. *)
Inductive View :=
| Connected
| QrCode (value : string)
| Waiting.

(** [Login({ connectionState })] *)
Definition Login (cs : ConnectionState) : View :=
  if whatsapp cs then Connected
  else match whatsappQr cs with
       | Some (String c r) => QrCode (String c r)
       | _ => Waiting
       end.

(** The header's status text, [isConnected ? 'Online' : 'Offline']. *)
Definition statusText (a : AppState) : string :=
  if isConnected a then "Online" else "Offline".

(** The socket event a payload of the server arrives as. *)
Definition receive (p : Control.Payload) : SocketEvent :=
  match p with
  | Control.Event (Server.EvQr qr) => Qr qr
  | Control.Event Server.EvConnectionOpen => ConnectionOpen
  | _ => Unhandled
  end.

Definition payloadOf (m : Control.Sent) : Control.Payload :=
  match m with
  | Control.ToAll p => p
  | Control.ToClient p => p
  end.

(** The events that do not touch the connection state: [connect] and
    those [App] has no handler for. *)
Definition quiet (e : SocketEvent) : Prop := e = Connect \/ e = Unhandled.

(** The client takes in what the server sent, in order. *)
Definition receiveAll (a : AppState) (sent : list Control.Sent) : AppState :=
  run a (map (fun m => receive (payloadOf m)) sent).

End Client.

(* ===================================================================== *)
(** ** HelpPage.tsx: the FAQ accordion *)
(* ===================================================================== *)

Module Help.

(** [setExpandedFaq(expandedFaq === index ? null : index)] *)
Definition toggle (expandedFaq : option nat) (index : nat) : option nat :=
  if decide (expandedFaq = Some index) then None else Some index.

(** The entry that is open after a series of clicks, from
    [useState(null)]. *)
Definition clicks (indices : list nat) : option nat :=
  fold_left toggle indices None.

End Help.

(* ===================================================================== *)
(** ** server.ts: the server as a whole *)
(* ===================================================================== *)

Module Run.

Import Server.

(** What can reach the server: the call of [connectToWhatsApp] when the
    module loads, a connection update, the three client requests that
    change state, and a report of a tracker. *)
Inductive Input :=
| ModuleLoaded
| ConnectionUpdated (u : ConnectionUpdate)
| AddContact (data : AddContactData)
| RemoveContact (j : string)
| SetProbeMethod (method : string)
| TrackerReported (ref : nat) (u : UpdateData).

(** The state after one input, in the world of that moment. *)
Definition step (s : State) (wi : World * Input) : State :=
  match wi.2 with
  | ModuleLoaded => stateOf (connectToWhatsApp s)
  | ConnectionUpdated u => stateOf (onConnectionUpdate wi.1 u s)
  | AddContact data => stateOf (onAddContact wi.1 data s)
  | RemoveContact j => stateOf (onRemoveContact wi.1 j s)
  | SetProbeMethod method => (Control.onSetProbeMethod method s).1
  | TrackerReported ref u => stateOf (trackerReports wi.1 ref u s)
  end.

Definition run (s : State) (inputs : list (World * Input)) : State :=
  fold_left step inputs s.

(** Every registry entry leads to a tracker object for that jid, which
    runs, uses the global probe method and holds a socket that was made;
    so does [sock]. *)
Definition WellFormed (s : State) : Prop :=
  (forall k, sock s = Some k -> (k < socketsMade s)%nat) /\
  forall j e, trackers s !! j = Some e ->
    exists t,
      objects s !! tracker e = Some t /\
      trackerJid t = j /\
      isTracking t = true /\
      probeMethod t = globalProbeMethod s /\
      exists k, trackerSock t = Some k /\ (k < socketsMade s)%nat.

End Run.

(* ===================================================================== *)
(** ** Characters in strings *)
(* ===================================================================== *)

Module Text.

(** [s.includes(c)] for a character. *)
Fixpoint contains (c : ascii) (s : string) : bool :=
  match s with
  | EmptyString => false
  | String a r => Ascii.eqb a c || contains c r
  end.

(** How often a character occurs in a string. *)
Fixpoint occurrences (c : ascii) (s : string) : nat :=
  match s with
  | EmptyString => 0
  | String a r => (if Ascii.eqb a c then 1 else 0) + occurrences c r
  end.

(** A string that does not begin with white space. *)
Definition startsClean (s : string) : Prop :=
  match s with
  | EmptyString => True
  | String c _ => JsString.isWhiteSpace c = false
  end.

(** A string of ASCII characters.  On such strings the white space of
    [JsString.isWhiteSpace] is all the white space [String.prototype.trim]
    knows, and a byte is a UTF-16 code unit. *)
Fixpoint isAscii (s : string) : bool :=
  match s with
  | EmptyString => true
  | String a r => (nat_of_ascii a <? 128)%nat && isAscii r
  end.

(** What an entry of an allow-list looks like when the variable is
    ASCII: ASCII itself, free of commas and of white space at either
    end. *)
Definition Entry (x : string) : Prop :=
  isAscii x = true /\ contains ","%char x = false /\ JsString.trim x = x.

End Text.

(* ===================================================================== *)
(** ** A number that WhatsApp reports under another jid *)
(* ===================================================================== *)

Module Defect.

Import Server.

(** WhatsApp knows the Brazilian mobile number 55 11 98765-4321 without
    its ninth digit: asked for 5511987654321@s.whatsapp.net,
    [sock.onWhatsApp] reports 551187654321@s.whatsapp.net.  Every other
    number is reported as it was asked for. *)
Definition ninthDigit : World :=
  {| onWhatsApp := fun _ j =>
       Normal (Some [{| exists_ := true;
                        jid := if String.eqb j "5511987654321@s.whatsapp.net"
                               then "551187654321@s.whatsapp.net" else j;
                        notify := None |}]);
     getProfilePicture := fun _ => Normal None;
     writeHistoryFile := Normal tt;
     writeContactsFile := Normal tt;
     dateNow := 3000 |}.

Definition reported : string := "551187654321@s.whatsapp.net".

(** The server has loaded with no saved data, the connection has opened
    and the number has been added, written with blanks and a hyphen. *)
Definition firstAdded : State :=
  Run.run (initialState ∅ [])
    [(ninthDigit, Run.ModuleLoaded);
     (ninthDigit, Run.ConnectionUpdated openUpdate);
     (ninthDigit, Run.AddContact (AddNumber "+55 11 98765-4321"))].

(** ... and added once more, written as digits only. *)
Definition addedTwice : State :=
  Run.run firstAdded [(ninthDigit, Run.AddContact (AddNumber "5511987654321"))].

(** A report of one device of that contact. *)
Definition sample : UpdateData :=
  {| devices := [{| deviceJid := "551187654321:0@s.whatsapp.net";
                    deviceState := Online; rtt := 180; avg := 180 |}] |}.

End Defect.

(* ===================================================================== *)
(** ** Properties of the string primitives *)
(* ===================================================================== *)

Example split_empty : JsString.split ","%char EmptyString = [EmptyString].
Proof. reflexivity. Qed.

Example split_two :
  JsString.split ","%char "a@x.org, b@y.org" = ["a@x.org"; " b@y.org"].
Proof. reflexivity. Qed.

Example trim_both : JsString.trim "  b@y.org " = "b@y.org".
Proof. reflexivity. Qed.

Lemma split_not_nil sep s : JsString.split sep s <> [].
Proof.
  destruct s as [|c r]; simpl; [discriminate|].
  destruct (Ascii.eqb c sep); [discriminate|].
  destruct (JsString.split sep r); discriminate.
Qed.

Lemma includes_spec x arr : JsString.includes x arr = true <-> x ∈ arr.
Proof.
  unfold JsString.includes. rewrite existsb_exists. split.
  - intros (y & Hin & Heq). apply String.eqb_eq in Heq. subst y.
    by apply list_elem_of_In.
  - intros Hin. exists x. split; [by apply list_elem_of_In | apply String.eqb_refl].
Qed.

Lemma includes_filter_nonempty x arr :
  x <> EmptyString ->
  JsString.includes x (filter (fun e => (0 < String.length e)%nat) arr)
  = JsString.includes x arr.
Proof.
  intros Hx. apply eq_true_iff_eq. rewrite !includes_spec, list_elem_of_filter.
  split; [tauto|]. intros Hin. split; [|done].
  destruct x; [done | simpl; lia].
Qed.

(* ===================================================================== *)
(** ** The two allow-list parsers *)
(* ===================================================================== *)

Example allowed_list :
  Auth.ALLOWED_EMAILS (Some "a@x.org, b@y.org,") = ["a@x.org"; "b@y.org"; EmptyString].
Proof. reflexivity. Qed.

Example allowed_list_filtered :
  AuthFiltered.ALLOWED_EMAILS (Some "a@x.org, b@y.org,") = ["a@x.org"; "b@y.org"].
Proof. vm_compute. reflexivity. Qed.

(** The guard [ALLOWED_EMAILS.length > 0] of src/src/auth.ts never fails:
  [split] yields at least one element. *)
Lemma auth_list_never_empty env : (0 < List.length (Auth.ALLOWED_EMAILS env))%nat.
Proof.
  unfold Auth.ALLOWED_EMAILS. rewrite length_map.
  pose proof (split_not_nil ","%char (JsString.orDefault env EmptyString)) as H.
  destruct (JsString.split _ _); [done | simpl; lia].
Qed.

(** Where the filtered list has an entry, both revisions decide every
  login the same way. *)
Lemma auth_agree_when_listed env email :
  AuthFiltered.ALLOWED_EMAILS env <> [] ->
  Auth.verify env email = AuthFiltered.verify env email.
Proof.
  intros Hne. unfold Auth.verify, AuthFiltered.verify, verifyWith.
  destruct email as [[|c r]|]; try reflexivity.
  pose proof (auth_list_never_empty env) as H1.
  apply Nat.ltb_lt in H1. rewrite H1.
  assert (H2 : (0 <? List.length (AuthFiltered.ALLOWED_EMAILS env))%nat = true).
  { apply Nat.ltb_lt. destruct (AuthFiltered.ALLOWED_EMAILS env); [done | simpl; lia]. }
  rewrite H2. unfold AuthFiltered.ALLOWED_EMAILS, Auth.ALLOWED_EMAILS.
  by rewrite includes_filter_nonempty.
Qed.

(** Where every entry is blank, src/src/auth.ts blocks every login and
  the filtered revision admits every login. *)
Lemma auth_diverge_when_blank env c r :
  AuthFiltered.ALLOWED_EMAILS env = [] ->
  Auth.verify env (Some (String c r)) = DoneRejected "Unauthorized email" /\
  AuthFiltered.verify env (Some (String c r)) = DoneUser (String c r).
Proof.
  intros Hnil. split.
  - unfold Auth.verify, verifyWith.
    pose proof (auth_list_never_empty env) as H1. apply Nat.ltb_lt in H1. rewrite H1.
    replace (JsString.includes (String c r) (Auth.ALLOWED_EMAILS env)) with false; [done|].
    symmetry. rewrite <- (includes_filter_nonempty (String c r)) by done.
    unfold AuthFiltered.ALLOWED_EMAILS in Hnil. unfold Auth.ALLOWED_EMAILS.
    by rewrite Hnil.
  - unfold AuthFiltered.verify, verifyWith. by rewrite Hnil.
Qed.

(** C10. With ALLOWED_EMAILS unset (or empty), src/src/auth.ts computes
  the one-element list of the empty string and rejects the login of
  user@example.com, while the revision in src/unnamed/part_001 computes
  the empty list and admits it: the two parsers do not admit the same
  logins. *)
Theorem allowed_emails_unset_diverge :
  Auth.ALLOWED_EMAILS None = [EmptyString] /\
  Auth.ALLOWED_EMAILS (Some EmptyString) = [EmptyString] /\
  AuthFiltered.ALLOWED_EMAILS None = [] /\
  AuthFiltered.ALLOWED_EMAILS (Some EmptyString) = [] /\
  Auth.verify None (Some "user@example.com") = DoneRejected "Unauthorized email" /\
  Auth.verify (Some EmptyString) (Some "user@example.com") = DoneRejected "Unauthorized email" /\
  AuthFiltered.verify None (Some "user@example.com") = DoneUser "user@example.com" /\
  AuthFiltered.verify (Some EmptyString) (Some "user@example.com") = DoneUser "user@example.com".
Proof. repeat split; vm_compute; reflexivity. Qed.

(* ===================================================================== *)
(** ** The classifier's transition rule *)
(* ===================================================================== *)

Section ClassifierFacts.

Import Classifier.

Variable smooth : option Z -> Z -> Z.
Variable cfg : Config.

Lemma classify_online s :
  (s <= onlineThreshold cfg)%Z -> classify cfg s = Online.
Proof. intros H. unfold classify. by rewrite (proj2 (Z.leb_le _ _) H). Qed.

Lemma classify_standby s :
  (onlineThreshold cfg < s <= standbyThreshold cfg)%Z -> classify cfg s = Standby.
Proof.
    intros [H1 H2]. unfold classify.
    rewrite (proj2 (Z.leb_gt _ _) H1). by rewrite (proj2 (Z.leb_le _ _) H2).
Qed.

Lemma classify_offline s :
  (onlineThreshold cfg < standbyThreshold cfg)%Z ->
  (standbyThreshold cfg < s)%Z -> classify cfg s = Offline.
Proof.
    intros Hord H. unfold classify.
    rewrite (proj2 (Z.leb_gt s (onlineThreshold cfg))) by lia.
    by rewrite (proj2 (Z.leb_gt _ _) H).
Qed.

Lemma step_timeout now c : state (step smooth cfg now c Timeout) = Offline.
Proof. reflexivity. Qed.

Lemma step_sample now c rtt :
  smoothed (step smooth cfg now c (RttSample rtt)) = Some (smooth (smoothed c) rtt) /\
  state (step smooth cfg now c (RttSample rtt)) = classify cfg (smooth (smoothed c) rtt).
Proof. split; reflexivity. Qed.

End ClassifierFacts.

(** The scenario of the specification: three samples under the online
  threshold, then one timeout. *)
Example classifier_scenario :
  let run := Classifier.run (Classifier.ema 1 4) Classifier.exampleConfig in
  let c0 := Classifier.initial 0 in
  Classifier.state (run c0 [(1, Classifier.RttSample 180)]%Z) = Online /\
  Classifier.state
  (run c0 [(1, Classifier.RttSample 180); (2, Classifier.RttSample 210)]%Z) = Online /\
  Classifier.state
  (run c0 [(1, Classifier.RttSample 180); (2, Classifier.RttSample 210);
           (3, Classifier.RttSample 195)]%Z) = Online /\
  Classifier.state
  (run c0 [(1, Classifier.RttSample 180); (2, Classifier.RttSample 210);
           (3, Classifier.RttSample 195); (4, Classifier.Timeout)]%Z) = Offline.
Proof. repeat split. Qed.

(** C1. The transition rule of the presence classifier.  For ordered
  thresholds, a Timeout outcome sets the state to Offline whatever the
  prior state and smoothed value were; an RttSample outcome first
  replaces the smoothed value by the filter's update and then classifies
  the new smoothed value: at most the online threshold gives Online,
  above it and at most the standby threshold gives Standby, above the
  standby threshold gives Offline.  With thresholds 300 and 800 the
  smoothed values 150, 500 and 1500 classify as Online, Standby and
  Offline. *)
Theorem classifier_transition_rule
  (smooth : option Z -> Z -> Z) (cfg : Classifier.Config) (now : Z)
  (c : Classifier.State) (o : Classifier.Outcome)
  (Hord : (Classifier.onlineThreshold cfg < Classifier.standbyThreshold cfg)%Z) :
  match o with
  | Classifier.Timeout =>
    Classifier.state (Classifier.step smooth cfg now c o) = Offline
  | Classifier.RttSample rtt =>
    let c' := Classifier.step smooth cfg now c o in
    let sm := smooth (Classifier.smoothed c) rtt in
    Classifier.smoothed c' = Some sm /\
    ((sm <= Classifier.onlineThreshold cfg)%Z -> Classifier.state c' = Online) /\
    ((Classifier.onlineThreshold cfg < sm <= Classifier.standbyThreshold cfg)%Z ->
     Classifier.state c' = Standby) /\
    ((Classifier.standbyThreshold cfg < sm)%Z -> Classifier.state c' = Offline)
  end /\
  Classifier.classify Classifier.exampleConfig 150 = Online /\
  Classifier.classify Classifier.exampleConfig 500 = Standby /\
  Classifier.classify Classifier.exampleConfig 1500 = Offline.
Proof.
  split; [|repeat split].
  destruct o as [|rtt].
  - apply step_timeout.
  - cbv zeta. destruct (step_sample smooth cfg now c rtt) as [Hsm Hst].
    rewrite Hsm, Hst. repeat split.
    + apply classify_online.
    + apply classify_standby.
    + by apply classify_offline.
Qed.

(** The rule at an Online session whose smoothed value is 1500 ms, with
  thresholds 300 and 800: a timeout gives Offline. *)
Lemma classifier_transition_rule_witness :
  Classifier.state
  (Classifier.step (Classifier.ema 1 4) Classifier.exampleConfig 10
     {| Classifier.smoothed := Some 1500%Z; Classifier.state := Online;
        Classifier.lastTransition := 0 |} Classifier.Timeout) = Offline.
Proof.
  refine (proj1 (classifier_transition_rule (Classifier.ema 1 4)
                   Classifier.exampleConfig 10
                   {| Classifier.smoothed := Some 1500%Z; Classifier.state := Online;
                      Classifier.lastTransition := 0 |} Classifier.Timeout _)).
  simpl. lia.
Defined.

(* ===================================================================== *)
(** ** The single-flight invariant *)
(* ===================================================================== *)

Section CorrelatorFacts.

Import Correlator.

Lemma inv_init t : Inv (init t).
Proof.
    split; simpl; try done.
    - constructor.
Qed.

Lemma inv_setConnected b s : Inv s -> Inv (setConnected b s).
Proof. intros [H1 H2 H3 H4 H5]. split; simpl; done. Qed.

Lemma inv_sendProbe now s : Inv s -> Inv (sendProbe now s).2.
Proof.
    intros [H1 H2 H3 H4 H5]. unfold sendProbe.
    destruct (outstanding s) as [r|] eqn:Hout; simpl; [by split; rewrite ?Hout|].
    destruct (connected s); simpl; [|by split; rewrite ?Hout].
    split; simpl.
    - rewrite H1. reflexivity.
    - intros r [= <-]. simpl. lia.
    - eapply Forall_impl; [exact H3|]. simpl. intros; lia.
    - intros r [= <-]. simpl. intros Hin.
      rewrite Forall_forall in H3. specialize (H3 _ Hin). lia.
    - exact H5.
Qed.

Lemma inv_resolve s req o :
  Inv s -> outstanding s = Some req -> Inv (resolve req o s).
Proof.
    intros [H1 H2 H3 H4 H5] Hout. split; simpl.
    - rewrite H1, Hout. simpl. unfold dropInFlight.
      rewrite filter_cons_False; [done | tauto].
    - done.
    - rewrite fmap_app. apply Forall_app. split; [done|].
      simpl. constructor; [by apply H2 | constructor].
    - done.
    - rewrite fmap_app. apply NoDup_app. split; [done|]. split.
      + intros x Hx Hin. simpl in Hin. apply list_elem_of_singleton in Hin. subst x.
        by apply (H4 req).
      + simpl. apply NoDup_singleton.
Qed.

Lemma inv_onAckEvent ev s : Inv s -> Inv (onAckEvent ev s).
Proof.
    intros HI. unfold onAckEvent.
    destruct (outstanding s) as [req|] eqn:Hout; [|done].
    destruct (matches ev req); [|done].
    destruct (kind ev); by apply inv_resolve.
Qed.

Lemma inv_handle s e : Inv s -> Inv (handle s e).
Proof.
    intros HI. destruct e; simpl.
    - by apply inv_sendProbe.
    - by apply inv_onAckEvent.
    - by apply inv_onAckEvent.
    - by apply inv_setConnected.
    - by apply inv_setConnected.
Qed.

Lemma inv_run es : forall s, Inv s -> Inv (run s es).
Proof.
    induction es as [|e es IH]; intros s HI; simpl; [done|].
    apply IH. by apply inv_handle.
Qed.

Lemma sampleIds_sublist s : sublist (sampleIds s) (completed s).*1.
Proof.
    unfold sampleIds. induction (completed s) as [|[p o] l IH]; simpl; [constructor|].
    destruct o; simpl.
    - by apply sublist_skip.
    - by apply sublist_cons.
Qed.

Lemma sendProbe_busy now s r :
  outstanding s = Some r -> sendProbe now s = (inl AdapterBusy, s).
Proof. intros H. unfold sendProbe. by rewrite H. Qed.

End CorrelatorFacts.

(** A late acknowledgement: the deadline of request 0 fires and clears
  the slot, and the acknowledgement that arrives afterwards produces no
  sample. *)
Example late_ack_discarded :
  let s := Correlator.run (Correlator.init "t")
           [Correlator.Tick 100; Correlator.Deadline 0;
            Correlator.Transport {| Correlator.probeId := Some 0%nat;
                                    Correlator.observedAt := 10200;
                                    Correlator.kind := Correlator.Ack |}] in
  Correlator.completed s = [(0%nat, Correlator.CycleTimeout)] /\
  Correlator.sampleIds s = [].
Proof. split; reflexivity. Qed.

(** C2. The single-flight invariant.  After any sequence of ticks,
  transport events, deadlines, disconnections and reconnections on a
  Target Session, at most one ProbeRequest is in flight; no request has
  produced two RTT samples; while a request is outstanding a send is
  answered with AdapterBusy and leaves the session as it was (so no
  sample comes of it); and a send succeeds only when nothing is in
  flight, the new request then being the only one. *)
Theorem single_flight (t : string) (es : list Correlator.Event) (now : Z) :
  let s := Correlator.run (Correlator.init t) es in
  (List.length (Correlator.inFlight s) <= 1)%nat /\
  NoDup (Correlator.sampleIds s) /\
  match Correlator.outstanding s with
  | Some r =>
    Correlator.inFlight s = [r] /\
    Correlator.sendProbe now s = (inl Correlator.AdapterBusy, s)
  | None =>
    Correlator.inFlight s = [] /\
    match Correlator.sendProbe now s with
    | (inr req, s') =>
        Correlator.inFlight s' = [req] /\
        Correlator.outstanding s' = Some req /\
        Correlator.completed s' = Correlator.completed s
    | (inl e, s') => e = Correlator.TransportUnavailable /\ s' = s
    end
  end.
Proof.
  intros s.
  assert (HI : Correlator.Inv s) by (apply inv_run, inv_init).
  pose proof (Correlator.inv_flight s HI) as Hfl.
  split; [|split].
  - rewrite Hfl. destruct (Correlator.outstanding s); simpl; lia.
  - apply (sublist_NoDup _ _ (Correlator.inv_nodup s HI) (sampleIds_sublist s)).
  - destruct (Correlator.outstanding s) as [r|] eqn:Hout.
    + split; [by rewrite Hfl | by apply (sendProbe_busy now s r)].
    + split; [by rewrite Hfl|].
      unfold Correlator.sendProbe. rewrite Hout.
      destruct (Correlator.connected s); simpl; [|done].
      by rewrite Hfl.
Qed.

(* ===================================================================== *)
(** ** The history cache *)
(* ===================================================================== *)

Section HistoryFacts.

Import Server.

(** What one [appendHistory] does, for each answer of the disk. *)
Lemma appendHistory_run w j dp s :
  appendHistory w j dp s =
  let cache := <[j := pushBounded (historyCache s !! j) dp]> (historyCache s) in
  match writeHistoryFile w with
  | Normal _ =>
      (Normal tt, setHistoryFile (Some cache) (setHistoryCache cache s), [])
  | Thrown _ =>
      (Normal tt, setHistoryCache cache s, [ConsoleError "Failed to save history:"])
  end.
Proof.
    unfold appendHistory, saveHistory, bind, tryCatch, get, put, await, effect.
    simpl. destruct (writeHistoryFile w) as [[]|]; reflexivity.
Qed.

Lemma appendHistory_cache w j dp s :
  historyCache (stateOf (appendHistory w j dp s))
  = <[j := pushBounded (historyCache s !! j) dp]> (historyCache s).
Proof.
    rewrite appendHistory_run. cbv zeta.
    destruct (writeHistoryFile w); reflexivity.
Qed.

Lemma appendHistory_returns w j dp s : returns (appendHistory w j dp s) = true.
Proof.
    rewrite appendHistory_run. cbv zeta.
    destruct (writeHistoryFile w); reflexivity.
Qed.

Lemma pushBounded_length old dp :
  List.length (pushBounded old dp)
  = let n := match old with Some a => List.length a | None => 0%nat end in
    if (HISTORY_LIMIT <? n)%nat then n else S n.
Proof.
    unfold pushBounded. destruct old as [a|]; cbv zeta.
    - destruct (HISTORY_LIMIT <? List.length a)%nat eqn:Hlt.
      + rewrite length_app. simpl. apply Nat.ltb_lt in Hlt.
        destruct a; simpl in *; lia.
      + rewrite length_app. simpl. lia.
    - simpl. reflexivity.
Qed.

Lemma pushBounded_bound old dp (bound : nat) :
  (HISTORY_LIMIT < bound)%nat ->
  (match old with Some a => List.length a | None => 0%nat end <= bound)%nat ->
  (List.length (pushBounded old dp) <= bound)%nat.
Proof.
    intros Hb Hold. rewrite pushBounded_length. cbv zeta.
    destruct (HISTORY_LIMIT <? _)%nat eqn:Hlt; [done|].
    apply Nat.ltb_ge in Hlt. lia.
Qed.

(** One append keeps every history within the bound. *)
Lemma appendHistory_bounded w j dp s (bound : nat) :
  (HISTORY_LIMIT < bound)%nat ->
  (forall k, (historyLength s k <= bound)%nat) ->
  forall k, (historyLength (stateOf (appendHistory w j dp s)) k <= bound)%nat.
Proof.
    intros Hb Hs k. unfold historyLength. rewrite appendHistory_cache.
    destruct (decide (j = k)) as [->|Hne].
    - rewrite lookup_insert_eq. apply pushBounded_bound; [done|].
      specialize (Hs k). unfold historyLength in Hs. exact Hs.
    - rewrite lookup_insert_ne by done. apply Hs.
Qed.

Lemma appendAll_cons a rest s :
  appendAll (a :: rest) s =
  let r := appendAll rest (stateOf (appendHistory a.1.1 a.1.2 a.2 s)) in
  (r.1.1, stateOf r, effectsOf (appendHistory a.1.1 a.1.2 a.2 s) ++ effectsOf r).
Proof.
    unfold appendAll at 1. simpl. unfold bind.
    rewrite appendHistory_run. cbv zeta.
    destruct (writeHistoryFile a.1.1); simpl; fold (appendAll rest);
      by destruct (appendAll rest _) as [[? ?] ?].
Qed.

Lemma appendAll_bounded appends (bound : nat) :
  (HISTORY_LIMIT < bound)%nat ->
  forall s,
    (forall k, (historyLength s k <= bound)%nat) ->
    (forall k, (historyLength (stateOf (appendAll appends s)) k <= bound)%nat) /\
    returns (appendAll appends s) = true.
Proof.
    intros Hb. induction appends as [|a rest IH]; intros s Hs.
    - split; [exact Hs | reflexivity].
    - rewrite appendAll_cons. cbv zeta.
      destruct (IH (stateOf (appendHistory a.1.1 a.1.2 a.2 s))) as [IH1 IH2].
      { by apply appendHistory_bounded. }
      split; [exact IH1 | exact IH2].
Qed.

End HistoryFacts.

(** After 1005 appends to one contact the array holds 1001 entries. *)
Example history_reaches_cap :
  Server.historyLength
  (Server.stateOf
     (Server.appendAll (repeat (Scenario.goodWorld, "j", Scenario.point) 1005)
        Scenario.connected)) "j" = 1001%nat.
Proof. vm_compute. reflexivity. Qed.

(** C7. Bounded per-target history.  From a cache whose arrays hold at
  most [historyCap] = 1001 entries (the empty cache, or one this server
  wrote), after any sequence of appends, to any contacts and whatever
  the disk does, the array of every contact holds at most [historyCap]
  entries; and once an array has reached the cap, an append drops its
  oldest entry first and adds the new data point at the end, leaving the
  length at the cap. *)
Theorem history_bounded
  (s0 : Server.State)
  (appends : list (Server.World * string * Server.DataPoint))
  (j : string)
  (Hinit : forall k, (Server.historyLength s0 k <= Server.historyCap)%nat) :
  let s := Server.stateOf (Server.appendAll appends s0) in
  (Server.historyLength s j <= Server.historyCap)%nat /\
  forall (w : Server.World) (dp : Server.DataPoint) (h : list Server.DataPoint),
  Server.historyCache s !! j = Some h ->
  List.length h = Server.historyCap ->
  Server.historyCache (Server.stateOf (Server.appendHistory w j dp s)) !! j
    = Some (tail h ++ [dp]) /\
  Server.historyLength (Server.stateOf (Server.appendHistory w j dp s)) j
    = Server.historyCap.
Proof.
  intros s. split.
  - apply appendAll_bounded; [unfold Server.historyCap; lia | exact Hinit].
  - intros w dp h Hh Hlen.
    unfold Server.historyLength. rewrite appendHistory_cache, lookup_insert_eq, Hh.
    assert (Hpush : Server.pushBounded (Some h) dp = tail h ++ [dp]).
    { unfold Server.pushBounded.
      rewrite (proj2 (Nat.ltb_lt _ _)); [done|].
      rewrite Hlen. unfold Server.historyCap. lia. }
    rewrite Hpush. split; [done|].
    rewrite length_app. simpl. destruct h; simpl in *; [done | lia].
Qed.

(** The bound at a server that has appended 1005 data points for one
  contact on a full disk: the array holds 1001 of them, and the next
  append drops the oldest. *)
Lemma history_bounded_witness :
  let s := Server.stateOf
           (Server.appendAll (repeat (Scenario.fullDisk, "j", Scenario.point) 1005)
              Scenario.connected) in
  (Server.historyLength s "j" <= Server.historyCap)%nat /\
  Server.historyCache
  (Server.stateOf (Server.appendHistory Scenario.goodWorld "j" Scenario.point s)) !! "j"
  = Some (tail (repeat Scenario.point 1001) ++ [Scenario.point]).
Proof.
  intros s.
  assert (Hinit : forall k,
             (Server.historyLength Scenario.connected k <= Server.historyCap)%nat).
  { intros k. unfold Server.historyLength. simpl. rewrite lookup_empty.
    unfold Server.historyCap. lia. }
  destruct (history_bounded Scenario.connected
              (repeat (Scenario.fullDisk, "j", Scenario.point) 1005) "j" Hinit)
    as [Hbound Hdrop].
  split; [exact Hbound|].
  apply (Hdrop Scenario.goodWorld Scenario.point (repeat Scenario.point 1001)).
  - vm_compute. reflexivity.
  - vm_compute. reflexivity.
Defined.

(** C8. Sink-error tolerance.  Whatever the disk answers, [appendHistory]
  returns normally; the cache then holds, for the contact, the array the
  append builds, ending in the new data point, and it is the same cache
  for every answer of the disk.  A failed write is logged and leaves the
  file as it was; a successful one stores the cache.  The probe path
  goes on: the update callback returns normally and still ends by
  emitting the data point to the clients. *)
Theorem sink_error_tolerated
  (w : Server.World) (s : Server.State) (j : string) (dp : Server.DataPoint) :
  let r := Server.appendHistory w j dp s in
  Server.returns r = true /\
  Server.historyCache (Server.stateOf r) !! j
  = Some (Server.pushBounded (Server.historyCache s !! j) dp) /\
  last (Server.pushBounded (Server.historyCache s !! j) dp) = Some dp /\
  (forall w' : Server.World,
    Server.historyCache (Server.stateOf (Server.appendHistory w' j dp s))
    = Server.historyCache (Server.stateOf r)) /\
  match Server.writeHistoryFile w with
  | Server.Thrown _ =>
    Server.effectsOf r = [Server.ConsoleError "Failed to save history:"] /\
    Server.historyFile (Server.stateOf r) = Server.historyFile s
  | Server.Normal _ =>
    Server.effectsOf r = [] /\
    Server.historyFile (Server.stateOf r)
    = Some (Server.historyCache (Server.stateOf r))
  end /\
  (forall u : Server.UpdateData,
    let r' := Server.onUpdate w j u s in
    Server.returns r' = true /\
    last (Server.effectsOf r')
    = Some (Server.IoEmit
              (Server.EvTrackerUpdate
                 {| Server.dpJid := j; Server.dpPlatform := Server.whatsapp;
                    Server.dpUpdate := u; Server.timestamp := Server.dateNow w |}
                 false))).
Proof.
  intros r. subst r. repeat split.
  - apply appendHistory_returns.
  - by rewrite appendHistory_cache, lookup_insert_eq.
  - unfold Server.pushBounded. apply last_snoc.
  - intros w'. by rewrite !appendHistory_cache.
  - rewrite appendHistory_run. cbv zeta.
    destruct (Server.writeHistoryFile w); split; reflexivity.
  - unfold Server.onUpdate, Server.when, Server.bind.
    destruct (0 <? _)%nat; [|reflexivity].
    rewrite appendHistory_run. cbv zeta.
    destruct (Server.writeHistoryFile w); reflexivity.
  - unfold Server.onUpdate, Server.when, Server.bind.
    destruct (0 <? _)%nat; [|reflexivity].
    rewrite appendHistory_run. cbv zeta.
    destruct (Server.writeHistoryFile w); reflexivity.
Qed.

(** A full disk at work: the data point is cached and emitted, the write
  is logged as failed, nothing is thrown. *)
Example full_disk_update :
  let r := Server.trackerReports Scenario.fullDisk 0 Scenario.sample Scenario.tracking in
  Server.returns r = true /\
  Server.historyCache (Server.stateOf r) !! "12345678900@s.whatsapp.net"
  = Some [Scenario.point] /\
  Server.historyFile (Server.stateOf r) = None /\
  Server.effectsOf r
  = [Server.ConsoleError "Failed to save history:";
     Server.IoEmit (Server.EvTrackerUpdate Scenario.point false)].
Proof. vm_compute. repeat split; reflexivity. Qed.

(* ===================================================================== *)
(** ** Target identities *)
(* ===================================================================== *)

Section IdentityFacts.

Import JsString.

Lemma removeNonDigits_allDigits n : allDigits (removeNonDigits n) = true.
Proof.
    induction n as [|c r IH]; simpl; [done|].
    destruct (isDigit c) eqn:Hc; simpl; [by rewrite Hc|done].
Qed.

Lemma removeNonDigits_same n : SameDigits n (removeNonDigits n).
Proof.
    induction n as [|c r IH]; simpl; [constructor|].
    destruct (isDigit c) eqn:Hc.
    - by apply same_keep.
    - by apply same_drop_left.
Qed.

Lemma removeNonDigits_fixed d : allDigits d = true -> removeNonDigits d = d.
Proof.
    induction d as [|c r IH]; simpl; [done|].
    intros [Hc Hr]%andb_true_iff. rewrite Hc. by rewrite IH.
Qed.

Lemma sameDigits_removeNonDigits a b :
  SameDigits a b -> removeNonDigits a = removeNonDigits b.
Proof.
    induction 1 as [|c a b _ IH|c a b Hc _ IH|c a b Hc _ IH]; simpl.
    - done.
    - by rewrite IH.
    - by rewrite Hc.
    - by rewrite Hc.
Qed.

Lemma removeNonDigits_sameDigits a :
  forall b, removeNonDigits a = removeNonDigits b -> SameDigits a b.
Proof.
    induction a as [|c a IHa]; intros b; simpl.
    - induction b as [|c' b IHb]; simpl; [constructor|].
      destruct (isDigit c') eqn:Hc'; [discriminate|].
      intros H. apply same_drop_right; auto.
    - destruct (isDigit c) eqn:Hc.
      + induction b as [|c' b IHb]; simpl; [discriminate|].
        destruct (isDigit c') eqn:Hc'.
        * intros [= -> H]. apply same_keep. by apply IHa.
        * intros H. apply same_drop_right; auto.
      + intros H. apply same_drop_left; auto.
Qed.

(** Differing only in non-digit characters is having the same digits. *)
Lemma sameDigits_iff a b :
  SameDigits a b <-> removeNonDigits a = removeNonDigits b.
Proof. split; [apply sameDigits_removeNonDigits | apply removeNonDigits_sameDigits]. Qed.

(** The digits-only string that differs from [n] only in non-digit
    characters is unique. *)
Lemma digits_unique n d :
  SameDigits n d -> allDigits d = true -> d = removeNonDigits n.
Proof.
    intros Hs Hd. rewrite (sameDigits_removeNonDigits _ _ Hs).
    symmetry. by apply removeNonDigits_fixed.
Qed.

Lemma targetJidOf_same a b :
  SameDigits a b -> Server.targetJidOf a = Server.targetJidOf b.
Proof.
    intros H. unfold Server.targetJidOf, Server.cleanNumberOf.
    by rewrite (sameDigits_removeNonDigits _ _ H).
Qed.

End IdentityFacts.

(* ===================================================================== *)
(** ** Adding and removing contacts *)
(* ===================================================================== *)

Section RegistryFacts.

Import Server.

Lemma startTracking_duplicate w n s e :
  trackers s !! targetJidOf n = Some e ->
  startTrackingWhatsApp w n true s
  = (Normal tt, s, [IoEmit (EvError (targetJidOf n) "Already tracking this contact")]).
Proof.
    intros H. unfold startTrackingWhatsApp, bind, get. simpl. by rewrite H.
Qed.

Lemma onRemoveContact_unknown w j s :
  trackers s !! j = None -> onRemoveContact w j s = (Normal tt, s, []).
Proof. intros H. unfold onRemoveContact, bind, get. simpl. by rewrite H. Qed.

(** What ['remove-contact'] does to a tracked contact. *)
Lemma onRemoveContact_tracked w j s e :
  trackers s !! j = Some e ->
  let s1 := setRegistry (alter stopTracking (tracker e) (objects s))
              (delete j (trackers s)) s in
  onRemoveContact w j s =
  match writeContactsFile w with
  | Normal _ =>
      (Normal tt, setContactsFile (Some (dom (delete j (trackers s)))) s1,
       [SocketEmit (EvContactRemoved j)])
  | Thrown _ =>
      (Normal tt, s1,
       [SocketEmit (EvContactRemoved j); ConsoleError "Failed to save contacts:"])
  end.
Proof.
    intros H. unfold onRemoveContact, callTracker, saveContacts, bind, tryCatch,
      get, put, effect, await. simpl. rewrite H. simpl.
    destruct (writeContactsFile w) as [[]|]; reflexivity.
Qed.

Lemma trackerReports_stopped w ref u s :
  (forall t, objects s !! ref = Some t -> isTracking t = false) ->
  trackerReports w ref u s = (Normal tt, s, []).
Proof.
    intros H. unfold trackerReports, bind, get. simpl.
    destruct (objects s !! ref) as [t|] eqn:Ht; [|done].
    by rewrite (H t eq_refl).
Qed.

End RegistryFacts.

(** The scenario of the help page: a formatted number is added, and the
  same number without the formatting is then turned away. *)
Example add_twice :
  Server.trackers Scenario.tracking !! "12345678900@s.whatsapp.net"
  = Some {| Server.tracker := 0%nat; Server.platform := Server.whatsapp |} /\
  Server.onAddContact Scenario.goodWorld (Server.AddNumber "12345678900") Scenario.tracking
  = (Server.Normal tt, Scenario.tracking,
     [Server.IoEmit
        (Server.EvError "12345678900@s.whatsapp.net" "Already tracking this contact")]).
Proof. split; vm_compute; reflexivity. Qed.

(** C4. The DuplicateTarget guard.  When the identity an add-contact
  request names is already in the registry, the handler returns
  normally, emits exactly one event, the error "Already tracking this
  contact" for that identity, and leaves the whole server state as it
  was: the registry, the tracker objects (so no second tracker, and the
  existing tracker as it is), the history and the files. *)
Theorem duplicate_target_rejected
  (w : Server.World) (s : Server.State) (data : Server.AddContactData)
  (e : Server.TrackerEntry)
  (Htracked :
     Server.trackers s !! Server.targetJidOf (Server.numberOf data) = Some e) :
  let r := Server.onAddContact w data s in
  r = (Server.Normal tt, s,
     [Server.IoEmit
        (Server.EvError (Server.targetJidOf (Server.numberOf data))
           "Already tracking this contact")]) /\
  Server.trackers (Server.stateOf r) = Server.trackers s /\
  Server.objects (Server.stateOf r) = Server.objects s.
Proof.
  intros r. subst r. unfold Server.onAddContact.
  rewrite (startTracking_duplicate w _ s e Htracked). done.
Qed.

(** The guard at the server that tracks 12345678900. *)
Lemma duplicate_target_rejected_witness :
  Server.onAddContact Scenario.goodWorld
  (Server.AddObject "1 234 567 8900" Server.whatsapp) Scenario.tracking
  = (Server.Normal tt, Scenario.tracking,
   [Server.IoEmit
      (Server.EvError "12345678900@s.whatsapp.net" "Already tracking this contact")]).
Proof.
  refine (proj1 (duplicate_target_rejected Scenario.goodWorld Scenario.tracking
                   (Server.AddObject "1 234 567 8900" Server.whatsapp)
                   {| Server.tracker := 0%nat; Server.platform := Server.whatsapp |} _)).
  vm_compute. reflexivity.
Defined.

(** C5, as stated, fails: a remove-contact request for an identity that
  is not tracked emits nothing at all. *)
Lemma target_not_found_silent : ~ Claim.TargetNotFoundSurfaced.
Proof.
  intros H.
  destruct (H Scenario.goodWorld Scenario.connected "nobody@s.whatsapp.net")
    as (e & Hin & _).
  - reflexivity.
  - vm_compute in Hin. by apply elem_of_nil in Hin.
Qed.

(** C5, amended.  A remove-contact request naming an identity that is not
  in the registry is a silent no-op: the handler returns normally (no
  exception), emits and logs nothing, and leaves the server state as it
  was. *)
Theorem remove_unknown_is_noop
  (w : Server.World) (s : Server.State) (j : string)
  (Hunknown : Server.trackers s !! j = None) :
  let r := Server.onRemoveContact w j s in
  Server.returns r = true /\
  Server.effectsOf r = [] /\
  Server.stateOf r = s.
Proof.
  intros r. subst r. by rewrite (onRemoveContact_unknown w j s Hunknown).
Qed.

(** The no-op at the server that tracks 12345678900 only. *)
Lemma remove_unknown_is_noop_witness :
  Server.effectsOf
  (Server.onRemoveContact Scenario.goodWorld "nobody@s.whatsapp.net" Scenario.tracking)
  = [].
Proof.
  refine (proj1 (proj2 (remove_unknown_is_noop Scenario.goodWorld Scenario.tracking
                          "nobody@s.whatsapp.net" _))).
  vm_compute. reflexivity.
Defined.

(** Removing a contact always returns normally and leaves the identity
  out of the registry; removing it a second time returns normally,
  changes nothing and emits nothing, so two calls of the handler have the
  effect of one.  If the contact was tracked, the first call tells the
  client and stops the tracker object of the registry entry, and no
  other object of the store. *)
Lemma remove_contact_twice
  (w1 w2 : Server.World) (s : Server.State) (j : string) :
  let r1 := Server.onRemoveContact w1 j s in
  let r2 := Server.onRemoveContact w2 j (Server.stateOf r1) in
  Server.returns r1 = true /\
  r2 = (Server.Normal tt, Server.stateOf r1, []) /\
  Server.trackers (Server.stateOf r1) !! j = None /\
  match Server.trackers s !! j with
  | Some e =>
    head (Server.effectsOf r1) = Some (Server.SocketEmit (Server.EvContactRemoved j)) /\
    Server.objects (Server.stateOf r1)
      = alter Server.stopTracking (Server.tracker e) (Server.objects s)
  | None => r1 = (Server.Normal tt, s, [])
  end.
Proof.
  intros r1 r2.
  destruct (Server.trackers s !! j) as [e|] eqn:Hreg.
  - assert (Hgone : Server.trackers (Server.stateOf r1) !! j = None).
    { subst r1. rewrite (onRemoveContact_tracked w1 j s e Hreg). cbv zeta.
      destruct (Server.writeContactsFile w1); simpl; apply lookup_delete_eq. }
    assert (Hr2 : r2 = (Server.Normal tt, Server.stateOf r1, [])).
    { subst r2. by apply onRemoveContact_unknown. }
    repeat split; try done.
    + subst r1. rewrite (onRemoveContact_tracked w1 j s e Hreg). cbv zeta.
      by destruct (Server.writeContactsFile w1).
    + subst r1. rewrite (onRemoveContact_tracked w1 j s e Hreg). cbv zeta.
      by destruct (Server.writeContactsFile w1).
    + subst r1. rewrite (onRemoveContact_tracked w1 j s e Hreg). cbv zeta.
      by destruct (Server.writeContactsFile w1).
  - assert (Hr1 : r1 = (Server.Normal tt, s, [])).
    { subst r1. by apply onRemoveContact_unknown. }
    subst r2. rewrite Hr1. simpl.
    repeat split; try done.
    by apply onRemoveContact_unknown.
Qed.

(** C6. Idempotence of stop.  The number 55 11 98765-4321, which WhatsApp
  reports as 551187654321, has been added twice, and the contact
  551187654321@s.whatsapp.net is then removed twice.  The first removal
  tells the client, the second changes nothing and sends nothing, and the
  jid is out of the registry after both.  But the removal has stopped
  only the tracker the registry held, the one of the second add: the
  tracker of the first add, which the second add overwrote in the
  registry, still runs for that jid, and when it reports after both
  removals the report is sent to every client as a tracker-update of
  that jid and stored in the history.  So samples of the target are
  emitted after stop. *)
Theorem stop_leaves_orphan_reporting :
  let w := Defect.ninthDigit in
  let s := Defect.addedTwice in
  let r1 := Server.onRemoveContact w Defect.reported s in
  let r2 := Server.onRemoveContact w Defect.reported (Server.stateOf r1) in
  let late := Server.trackerReports w 0%nat Defect.sample (Server.stateOf r2) in
  Server.trackers s !! Defect.reported
    = Some {| Server.tracker := 1%nat; Server.platform := Server.whatsapp |} /\
  Server.effectsOf r1 = [Server.SocketEmit (Server.EvContactRemoved Defect.reported)] /\
  r2 = (Server.Normal tt, Server.stateOf r1, []) /\
  Server.trackers (Server.stateOf r2) !! Defect.reported = None /\
  Server.isTracking <$> Server.objects (Server.stateOf r2) !! 1%nat = Some false /\
  Server.isTracking <$> Server.objects (Server.stateOf r2) !! 0%nat = Some true /\
  Server.trackerJid <$> Server.objects (Server.stateOf r2) !! 0%nat
    = Some Defect.reported /\
  Server.effectsOf late
    = [Server.IoEmit
         (Server.EvTrackerUpdate
            {| Server.dpJid := Defect.reported; Server.dpPlatform := Server.whatsapp;
               Server.dpUpdate := Defect.sample; Server.timestamp := 3000 |}
            false)] /\
  Server.historyCache (Server.stateOf late) !! Defect.reported
    = Some [{| Server.dpJid := Defect.reported; Server.dpPlatform := Server.whatsapp;
               Server.dpUpdate := Defect.sample; Server.timestamp := 3000 |}].
Proof.
  cbv zeta. repeat split; vm_compute; reflexivity.
Qed.

(** Removing the tracked contact twice, and a late report of its
  tracker. *)
Example remove_twice :
  let r1 := Server.onRemoveContact Scenario.goodWorld "12345678900@s.whatsapp.net"
            Scenario.tracking in
  let r2 := Server.onRemoveContact Scenario.goodWorld "12345678900@s.whatsapp.net"
            (Server.stateOf r1) in
  Server.effectsOf r1
  = [Server.SocketEmit (Server.EvContactRemoved "12345678900@s.whatsapp.net")] /\
  Server.effectsOf r2 = [] /\
  Server.isTracking <$> Server.objects (Server.stateOf r2) !! 0%nat = Some false /\
  Server.effectsOf
  (Server.trackerReports Scenario.goodWorld 0 Scenario.sample (Server.stateOf r2)) = [].
Proof. vm_compute. repeat split; reflexivity. Qed.

(** The identity derived from an input is a string of digits followed
  by '@s.whatsapp.net', the digits being the input with its non-digit
  characters deleted; inputs that differ only in non-digit characters
  derive the same identity, as '+1 (234) 567-8900' and '12345678900'
  do. *)
Lemma normalized_identity :
  (forall n : string,
    exists d : string,
      Server.targetJidOf n = d +:+ "@s.whatsapp.net" /\
      JsString.allDigits d = true /\
      JsString.SameDigits n d) /\
  (forall n1 n2 : string,
    JsString.SameDigits n1 n2 -> Server.targetJidOf n2 = Server.targetJidOf n1) /\
  Server.targetJidOf "+1 (234) 567-8900" = "12345678900@s.whatsapp.net" /\
  Server.targetJidOf "12345678900" = "12345678900@s.whatsapp.net".
Proof.
  repeat split.
  - intros n. exists (JsString.removeNonDigits n). repeat split.
    + apply removeNonDigits_allDigits.
    + apply removeNonDigits_same.
  - intros n1 n2 Hsame. symmetry. by apply targetJidOf_same.
Qed.

(** C9. Target-identity normalization.  '+55 11 98765-4321' and
  '5511987654321' differ only in non-digit characters and derive the
  same identity, 5511987654321@s.whatsapp.net.  WhatsApp reports the
  number as 551187654321@s.whatsapp.net, and that is the key under which
  the first add has put it in the registry, where its tracker runs.  The
  guard of the second add looks for the derived identity, does not find
  it, and the second spelling is not rejected: the clients get
  contact-added and no error, a second tracker is made and started for
  the same jid, and the registry entry now refers to it. *)
Theorem second_spelling_not_rejected :
  let w := Defect.ninthDigit in
  let s1 := Defect.firstAdded in
  let r := Server.onAddContact w (Server.AddNumber "5511987654321") s1 in
  JsString.SameDigits "+55 11 98765-4321" "5511987654321" /\
  Server.targetJidOf "+55 11 98765-4321" = "5511987654321@s.whatsapp.net" /\
  Server.targetJidOf "5511987654321" = "5511987654321@s.whatsapp.net" /\
  map_to_list (Server.trackers s1)
    = [(Defect.reported,
        {| Server.tracker := 0%nat; Server.platform := Server.whatsapp |})] /\
  Server.isTracking <$> Server.objects s1 !! 0%nat = Some true /\
  Server.effectsOf r
    = [Server.IoEmit (Server.EvContactAdded Defect.reported "5511987654321");
       Server.IoEmit (Server.EvProfilePic Defect.reported None);
       Server.IoEmit (Server.EvContactName Defect.reported "5511987654321")] /\
  map_to_list (Server.trackers (Server.stateOf r))
    = [(Defect.reported,
        {| Server.tracker := 1%nat; Server.platform := Server.whatsapp |})] /\
  Server.objects (Server.stateOf r) !! 0%nat = Server.objects s1 !! 0%nat /\
  Server.trackerJid <$> Server.objects (Server.stateOf r) !! 1%nat
    = Some Defect.reported /\
  Server.isTracking <$> Server.objects (Server.stateOf r) !! 1%nat = Some true.
Proof.
  cbv zeta. split.
  - apply removeNonDigits_sameDigits. vm_compute. reflexivity.
  - repeat split; vm_compute; reflexivity.
Qed.

(* ===================================================================== *)
(** ** Reconnection *)
(* ===================================================================== *)

Section KeepsRules.

Import Server.

Context (I : State -> Prop).

Lemma keeps_ret {A} (a : A) : Keeps I (ret a).
Proof. by intros s Hs. Qed.

Lemma keeps_effect e : Keeps I (effect e).
Proof. by intros s Hs. Qed.

Lemma keeps_await {A} (c : Completion A) : Keeps I (await c).
Proof. by intros s Hs. Qed.

(** The continuation may rely on what is known of the value. *)
Lemma keeps_bind_val {A B} (Q : A -> Prop) (m : M A) (k : A -> M B) :
  (forall s a s1 o, m s = (Normal a, s1, o) -> Q a) ->
  Keeps I m -> (forall a, Q a -> Keeps I (k a)) -> Keeps I (bind m k).
Proof.
    intros HQ Hm Hk s Hs. unfold bind, stateOf.
    specialize (Hm s Hs). specialize (HQ s). unfold stateOf in Hm.
    destruct (m s) as [[[a|err] s1] o1]; simpl in *; [|done].
    specialize (Hk a (HQ a s1 o1 eq_refl) s1 Hm). unfold stateOf in Hk.
    by destruct (k a s1) as [[r s2] o2].
Qed.

Lemma keeps_bind {A B} (m : M A) (k : A -> M B) :
  Keeps I m -> (forall a, Keeps I (k a)) -> Keeps I (bind m k).
Proof.
    intros Hm Hk. apply (keeps_bind_val (fun _ => True)); auto.
Qed.

(** After [get], the continuation runs on the state it was handed. *)
Lemma keeps_get_bind {B} (k : State -> M B) :
  (forall s, I s -> I (stateOf (k s s))) -> Keeps I (bind get k).
Proof.
    intros Hk s Hs. specialize (Hk s Hs). unfold bind, get, stateOf in *.
    simpl. by destruct (k s s) as [[r s2] o2].
Qed.

Lemma stateOf_put_bind {B} (x : State) (k : unit -> M B) s :
  stateOf (bind (put x) k s) = stateOf (k tt x).
Proof. unfold bind, put, stateOf. simpl. by destruct (k tt x) as [[r s2] o2]. Qed.

Lemma keeps_tryCatch {A} (m : M A) (h : string -> M A) :
  Keeps I m -> (forall err, Keeps I (h err)) -> Keeps I (tryCatch m h).
Proof.
    intros Hm Hh s Hs. unfold tryCatch, stateOf.
    specialize (Hm s Hs). unfold stateOf in Hm.
    destruct (m s) as [[[a|err] s1] o1]; simpl in *; [done|].
    specialize (Hh err s1 Hm). unfold stateOf in Hh.
    by destruct (h err s1) as [[r s2] o2].
Qed.

Lemma keeps_when b m : Keeps I m -> Keeps I (when b m).
Proof. intros Hm. destruct b; [done | apply keeps_ret]. Qed.

Lemma keeps_forEach {A} (l : list A) (f : A -> M unit) :
  (forall x, x ∈ l -> Keeps I (f x)) -> Keeps I (forEach l f).
Proof.
    induction l as [|x l IH]; intros Hf; simpl; [apply keeps_ret|].
    apply keeps_bind.
    - apply Hf. by left.
    - intros _. apply IH. intros y Hy. apply Hf. by right.
Qed.

End KeepsRules.

Section ReconnectFacts.

Import Server.

Variables (j : string) (e : TrackerEntry) (t : WhatsAppTracker).

Lemma keeps_saveContacts w : Keeps (Tracked j e t) (saveContacts w).
Proof.
    unfold saveContacts. apply keeps_tryCatch; [|intros; apply keeps_effect].
    apply keeps_get_bind. intros s Hs.
    unfold bind, await, put, stateOf. by destruct (writeContactsFile w).
Qed.

Lemma keeps_replayHistory k : Keeps (Tracked j e t) (replayHistory k).
Proof.
    unfold replayHistory. apply keeps_get_bind. intros s Hs.
    destruct (historyCache s !! k) as [h|]; [|done].
    refine (keeps_forEach _ h _ _ s Hs). intros; apply keeps_effect.
Qed.

Lemma keeps_callTracker ref f :
  ref <> tracker e -> Keeps (Tracked j e t) (callTracker ref f).
Proof.
    intros Hne. unfold callTracker. apply keeps_get_bind. intros s [H1 H2].
    split; simpl; [done|]. by rewrite lookup_alter_ne.
Qed.

Lemma keeps_callOnWhatsApp w q : Keeps (Tracked j e t) (callOnWhatsApp w q).
Proof.
    unfold callOnWhatsApp. apply keeps_get_bind. intros s Hs.
    by destruct (sock s).
Qed.

Lemma callOnWhatsApp_value w q s a s1 o :
  callOnWhatsApp w q s = (Normal a, s1, o) ->
  exists sk, onWhatsApp w sk q = Normal a.
Proof.
    unfold callOnWhatsApp, bind, get, await. simpl.
    destruct (sock s) as [sk|]; simpl.
    - destruct (onWhatsApp w sk q) eqn:Hq; [|discriminate].
      intros [= <- _ _]. by exists sk.
    - discriminate.
Qed.

(** Verifying and tracking a number leaves a session alone unless the
    number resolves to the identity of that very session. *)
Lemma keeps_verifyAndTrack w n b :
  (forall sk res rs,
      onWhatsApp w sk (targetJidOf n) = Normal (Some (res :: rs)) ->
      exists_ res = true -> jid res <> j) ->
  Keeps (Tracked j e t) (verifyAndTrack w n b).
Proof.
    intros Hworld. unfold verifyAndTrack.
    apply keeps_tryCatch.
    2:{ intros err. apply keeps_bind; [apply keeps_effect|].
        intros _. apply keeps_when, keeps_effect. }
    apply (keeps_bind_val _
             (fun a => exists sk, onWhatsApp w sk (targetJidOf n) = Normal a)).
    { apply callOnWhatsApp_value. }
    { apply keeps_callOnWhatsApp. }
    intros [[|res rs]|] [sk Hq]; try (apply keeps_when, keeps_effect).
    destruct (exists_ res) eqn:Hex; [|apply keeps_when, keeps_effect].
    specialize (Hworld sk res rs Hq Hex).
    apply keeps_get_bind. intros s [H1 H2].
    rewrite stateOf_put_bind.
    assert (Hfresh : fresh (dom (objects s)) <> tracker e).
    { intros Heq. apply (is_fresh (dom (objects s))).
      rewrite Heq. apply elem_of_dom. by exists t. }
    match goal with
    | |- Tracked j e t (stateOf (?m ?x)) =>
        cut (Keeps (Tracked j e t) m); [intros HK; apply HK|]
    end.
    - split; simpl.
      + by rewrite lookup_insert_ne.
      + by rewrite lookup_insert_ne.
    - apply keeps_bind; [apply keeps_replayHistory|]. intros _.
      apply keeps_bind; [by apply keeps_callTracker|]. intros _.
      apply keeps_bind; [apply keeps_await|]. intros ppUrl.
      apply keeps_bind.
      { apply keeps_tryCatch; [|intros; apply keeps_ret].
        apply keeps_bind; [apply keeps_callOnWhatsApp|]. intros; apply keeps_ret. }
      intros contactName.
      apply keeps_bind; [apply keeps_effect|]. intros _.
      apply keeps_bind; [apply keeps_effect|]. intros _.
      apply keeps_bind; [apply keeps_effect|]. intros _.
      apply keeps_saveContacts.
Qed.

End ReconnectFacts.

Section ReconnectHandlers.

Import Server.

Lemma onConnectionUpdate_close w status s :
  onConnectionUpdate w (closeUpdate status) s
  = (Normal tt, afterClose status s, [ConsoleLog "connection closed, reconnecting "]).
Proof.
    unfold onConnectionUpdate, closeUpdate, connectToWhatsApp, afterClose,
      bind, when, get, put, effect, ret. simpl.
    destruct (bool_decide (status = Some loggedOut)); reflexivity.
Qed.

Lemma afterClose_registry status s :
  trackers (afterClose status s) = trackers s /\
  objects (afterClose status s) = objects s /\
  initialContacts (afterClose status s) = initialContacts s /\
  historyCache (afterClose status s) = historyCache s.
Proof. unfold afterClose. by destruct (bool_decide _). Qed.

Lemma stateOf_get_bind {B} (k : State -> M B) s :
  stateOf (bind get k s) = stateOf (k s s).
Proof. unfold bind, get, stateOf. simpl. by destruct (k s s) as [[r s2] o2]. Qed.

Lemma keeps_restoreTrackers w j e t s :
  (forall c, c ∈ initialContacts s -> trackers s !! c = None ->
     forall sk res rs,
       onWhatsApp w sk (targetJidOf (JsString.beforeAt c)) = Normal (Some (res :: rs)) ->
       exists_ res = true -> jid res <> j) ->
  Tracked j e t s -> Tracked j e t (stateOf (restoreTrackers w s)).
Proof.
    intros Hworld Hs. unfold restoreTrackers. rewrite stateOf_get_bind.
    match goal with
    | |- Tracked j e t (stateOf (?m ?x)) =>
        cut (Keeps (Tracked j e t) m); [intros HK; by apply HK|]
    end.
    apply keeps_bind.
    - apply keeps_forEach. intros; apply keeps_effect.
    - intros _. apply keeps_forEach. intros c Hc.
      apply list_elem_of_filter in Hc as [_ Hc].
      apply list_elem_of_filter in Hc as [Hnone Hc].
      apply keeps_verifyAndTrack. by apply Hworld.
Qed.

Lemma keeps_open w j e t s :
  (forall c, c ∈ initialContacts s -> trackers s !! c = None ->
     forall sk res rs,
       onWhatsApp w sk (targetJidOf (JsString.beforeAt c)) = Normal (Some (res :: rs)) ->
       exists_ res = true -> jid res <> j) ->
  Tracked j e t s -> Tracked j e t (stateOf (onConnectionUpdate w openUpdate s)).
Proof.
    intros Hworld Hs.
    assert (Heq : stateOf (onConnectionUpdate w openUpdate s)
                  = stateOf (restoreTrackers w
                               (setConnection (sock s) (socketsMade s) true None s))).
    { unfold onConnectionUpdate, openUpdate, bind, get, put, effect, ret, stateOf.
      simpl. by destruct (restoreTrackers w _) as [[r s2] o2]. }
    rewrite Heq. by apply keeps_restoreTrackers.
Qed.

Lemma stateOf_reconnect w status s :
  stateOf (reconnect w status s)
  = stateOf (onConnectionUpdate w openUpdate (afterClose status s)).
Proof.
    unfold reconnect, bind, stateOf. rewrite onConnectionUpdate_close.
    by destruct (onConnectionUpdate w openUpdate _) as [[r s2] o2].
Qed.

End ReconnectHandlers.

(** A reconnection at the server that tracks 12345678900: the socket is
  replaced, the tracker is as it was and still holds the first socket,
  and the saved contact that was not tracked gets a tracker on the new
  socket. *)
Example reconnect_scenario :
  let s' := Server.stateOf (Server.reconnect Scenario.goodWorld (Some 428%Z)
                            Scenario.restoring) in
  Server.sock s' = Some 1%nat /\
  Server.objects s' !! 0%nat = Some Scenario.itsTracker /\
  Server.trackerSock <$> Server.objects s' !! 1%nat = Some (Some 1%nat) /\
  Server.tracker <$> Server.trackers s' !! "4915112345678@s.whatsapp.net" = Some 1%nat.
Proof. vm_compute. repeat split; reflexivity. Qed.

(** C3, as stated, fails: after a reconnection the session is still
  registered and its tracker runs with the state it had, but the
  tracker holds the socket that was closed, not the one of the new
  connection. *)
Lemma reconnection_leaves_stale_socket : ~ Claim.ReconnectionResumes.
Proof.
  intros H.
  destruct (H Scenario.goodWorld Scenario.tracking (Some 428%Z)
              "12345678900@s.whatsapp.net"
              {| Server.tracker := 0%nat; Server.platform := Server.whatsapp |}
              Scenario.itsTracker)
    as (t' & _ & Hobj & _ & _ & Hsock).
  - discriminate.
  - vm_compute. reflexivity.
  - vm_compute. reflexivity.
  - reflexivity.
  - vm_compute. reflexivity.
  - vm_compute in Hobj. injection Hobj as <-.
    vm_compute in Hsock. discriminate.
Qed.

(** C3, amended.  A reconnection neither destroys nor resets a session.
  The close handler returns normally and changes only the connection
  flags and, unless the account was logged out, the socket, which is
  made anew: the registry, the tracker objects and the history are as
  before.  When the new connection opens, the registry entry of the
  session and its tracker object, with its classifier state, its running
  flag and the socket it was constructed with, are as before the
  disconnection, provided no saved contact that is restored at that
  moment resolves to the identity of the session. *)
Theorem reconnection_keeps_sessions
  (w : Server.World) (s : Server.State) (status : option Z)
  (j : string) (e : Server.TrackerEntry) (t : Server.WhatsAppTracker)
  (Hreg : Server.trackers s !! j = Some e)
  (Hobj : Server.objects s !! Server.tracker e = Some t)
  (Hrestore :
     forall c, c ∈ Server.initialContacts s -> Server.trackers s !! c = None ->
       forall sk res rs,
         Server.onWhatsApp w sk (Server.targetJidOf (JsString.beforeAt c))
           = Server.Normal (Some (res :: rs)) ->
         Server.exists_ res = true -> Server.jid res <> j) :
  let closed := Server.onConnectionUpdate w (Server.closeUpdate status) s in
  let s' := Server.stateOf (Server.reconnect w status s) in
  Server.returns closed = true /\
  Server.trackers (Server.stateOf closed) = Server.trackers s /\
  Server.objects (Server.stateOf closed) = Server.objects s /\
  Server.historyCache (Server.stateOf closed) = Server.historyCache s /\
  Server.sock (Server.stateOf closed)
  = (if bool_decide (status = Some Server.loggedOut)
     then Server.sock s else Some (Server.socketsMade s)) /\
  Server.trackers s' !! j = Some e /\
  Server.objects s' !! Server.tracker e = Some t.
Proof.
  intros closed s'. subst closed s'.
  rewrite onConnectionUpdate_close, stateOf_reconnect.
  destruct (afterClose_registry status s) as (Htr & Hob & Hic & Hhc).
  assert (Hkept : Server.Tracked j e t
            (Server.stateOf
               (Server.onConnectionUpdate w Server.openUpdate
                  (Server.afterClose status s)))).
  { apply keeps_open.
    - rewrite Hic, Htr. exact Hrestore.
    - split; [by rewrite Htr | by rewrite Hob]. }
  destruct Hkept as [Hk1 Hk2].
  repeat split; try done.
  unfold Server.stateOf, Server.afterClose. simpl.
  by destruct (bool_decide _).
Qed.

(** The session of 12345678900 across the reconnection that restores
  the other saved contact. *)
Lemma reconnection_keeps_sessions_witness :
  Server.objects
  (Server.stateOf (Server.reconnect Scenario.goodWorld (Some 428%Z) Scenario.restoring))
  !! 0%nat = Some Scenario.itsTracker.
Proof.
  refine (proj2 (proj2 (proj2 (proj2 (proj2 (proj2
            (reconnection_keeps_sessions Scenario.goodWorld Scenario.restoring
               (Some 428%Z) "12345678900@s.whatsapp.net"
               {| Server.tracker := 0%nat; Server.platform := Server.whatsapp |}
               Scenario.itsTracker _ _ _))))))).
  - vm_compute. reflexivity.
  - vm_compute. reflexivity.
  - intros c Hc Hnone sk res rs Hres _.
    apply list_elem_of_In in Hc. simpl in Hc.
    destruct Hc as [<-|[<-|[]]].
    + vm_compute in Hnone. discriminate.
    + vm_compute in Hres. injection Hres as <- _. simpl. discriminate.
Defined.

(* ===================================================================== *)
(** ** What the history cache holds *)
(* ===================================================================== *)

Section HistoryContents.

Import Server History.

Lemma historyOf_append w j dp s k :
  historyOf (stateOf (appendHistory w j dp s)) k
  = if decide (j = k) then pushBounded (historyCache s !! j) dp else historyOf s k.
Proof.
  unfold historyOf. rewrite appendHistory_cache.
  destruct (decide (j = k)) as [->|Hne].
  - by rewrite lookup_insert_eq.
  - by rewrite lookup_insert_ne.
Qed.

Lemma lastN_all {A} n (l : list A) : (List.length l <= n)%nat -> lastN n l = l.
Proof. intros H. unfold lastN. by replace (List.length l - n)%nat with 0%nat by lia. Qed.

Lemma lastN_length {A} n (l : list A) :
  List.length (lastN n l) = Nat.min n (List.length l).
Proof. unfold lastN. rewrite length_drop. lia. Qed.

(** Pushing onto an array and continuing is taking the last elements of
    the longer sequence. *)
Lemma lastN_push h dp rest :
  let b := Nat.max (List.length h) historyCap in
  lastN (Nat.max (List.length (pushBounded (Some h) dp)) historyCap)
        (pushBounded (Some h) dp ++ rest)
  = lastN b (h ++ dp :: rest).
Proof.
  cbv zeta. pose proof (pushBounded_length (Some h) dp) as Hlen. cbv zeta in Hlen.
  rewrite Hlen. unfold pushBounded. unfold historyCap, HISTORY_LIMIT.
  destruct (1000 <? List.length h)%nat eqn:Hlt.
  - apply Nat.ltb_lt in Hlt.
    destruct h as [|x h]; [simpl in Hlt; lia|].
    change (tail (x :: h)) with h.
    rewrite <- app_assoc.
    change ([dp] ++ rest) with (dp :: rest).
    change ((x :: h) ++ dp :: rest) with (x :: (h ++ dp :: rest)).
    unfold lastN.
    set (l := h ++ dp :: rest).
    assert (Hl : List.length l = (List.length h + S (List.length rest))%nat).
    { subst l. by rewrite length_app. }
    rewrite !length_cons in *.
    replace (S (List.length l) - Nat.max (S (List.length h)) 1001)%nat
      with (S (List.length l - Nat.max (S (List.length h)) 1001)) by lia.
    reflexivity.
  - apply Nat.ltb_ge in Hlt.
    rewrite <- app_assoc.
    change ([dp] ++ rest) with (dp :: rest).
    replace (Nat.max (S (List.length h)) 1001) with 1001%nat by lia.
    replace (Nat.max (List.length h) 1001) with 1001%nat by lia.
    reflexivity.
Qed.

Lemma historyOf_appendAll appends : forall s j,
  historyOf (stateOf (appendAll appends s)) j
  = lastN (Nat.max (List.length (historyOf s j)) historyCap)
          (historyOf s j ++ pointsFor j appends).
Proof.
  induction appends as [|a rest IH]; intros s j.
  - unfold pointsFor. simpl. rewrite app_nil_r. symmetry. apply lastN_all.
    apply Nat.le_max_l.
  - rewrite appendAll_cons. cbv zeta. unfold stateOf at 1. simpl.
    fold (stateOf (appendAll rest (stateOf (appendHistory a.1.1 a.1.2 a.2 s)))).
    rewrite IH. rewrite historyOf_append.
    unfold pointsFor. rewrite filter_cons.
    destruct (decide (a.1.2 = j)) as [Heq|Hne].
    + rewrite Heq. simpl.
      change (list_fmap _ _ snd (filter _ rest)) with (pointsFor j rest).
      unfold historyOf. destruct (historyCache s !! j) as [h|]; simpl default.
      * apply lastN_push.
      * apply (lastN_push [] a.2 (pointsFor j rest)).
    + reflexivity.
Qed.

End HistoryContents.

(* ===================================================================== *)
(** ** What verifying and tracking a number does *)
(* ===================================================================== *)

Section TrackFacts.

Import Server Track.

Lemma bind_get {B} (k : State -> M B) s : bind get k s = k s s.
Proof. unfold bind, get. by destruct (k s s) as [[r s2] o2]. Qed.

Lemma bind_put {B} x (k : unit -> M B) s : bind (put x) k s = k tt x.
Proof. unfold bind, put. by destruct (k tt x) as [[r s2] o2]. Qed.

Lemma bind_effect {B} e (k : unit -> M B) s :
  bind (effect e) k s = prepend [e] (k tt s).
Proof. unfold bind, effect, prepend. by destruct (k tt s) as [[r s2] o2]. Qed.

Lemma bind_pure {A B} (m : M A) (k : A -> M B) a s :
  m s = (Normal a, s, []) -> bind m k s = k a s.
Proof. intros H. unfold bind. rewrite H. by destruct (k a s) as [[r s2] o2]. Qed.

Lemma forEach_effects {A} (l : list A) (f : A -> Effect) s :
  forEach l (fun x => effect (f x)) s = (Normal tt, s, map f l).
Proof.
  induction l as [|x l IH]; simpl; [done|].
  rewrite bind_effect, IH. reflexivity.
Qed.

Lemma replayHistory_run j s : replayHistory j s = (Normal tt, s, replayed s j).
Proof.
  unfold replayHistory, replayed. rewrite bind_get.
  destruct (historyCache s !! j) as [h|]; simpl.
  - by rewrite forEach_effects.
  - reflexivity.
Qed.

Lemma bind_replayHistory {B} j (k : unit -> M B) s :
  bind (replayHistory j) k s = prepend (replayed s j) (k tt s).
Proof.
  unfold bind, prepend. rewrite replayHistory_run.
  by destruct (k tt s) as [[r s2] o2].
Qed.

Lemma bind_callTracker {B} ref f (k : unit -> M B) s :
  bind (callTracker ref f) k s
  = k tt (setRegistry (alter f ref (objects s)) (trackers s) s).
Proof.
  unfold callTracker, bind, get, put. simpl.
  by destruct (k tt _) as [[r s2] o2].
Qed.

Lemma bind_callOnWhatsApp {B} w q (k : option (list OnWhatsAppResult) -> M B) s :
  bind (callOnWhatsApp w q) k s
  = match sock s with
    | Some sk =>
        match onWhatsApp w sk q with
        | Normal a => k a s
        | Thrown err => (Thrown err, s, [])
        end
    | None => (Thrown "TypeError", s, [])
    end.
Proof.
  unfold callOnWhatsApp, bind, get, await. simpl.
  destruct (sock s) as [sk|]; simpl; [|done].
  destruct (onWhatsApp w sk q) as [a|err]; [|done].
  by destruct (k a s) as [[r s2] o2].
Qed.

Lemma saveContacts_run w s :
  saveContacts w s
  = match writeContactsFile w with
    | Normal _ => (Normal tt, setContactsFile (Some (dom (trackers s))) s, [])
    | Thrown _ => (Normal tt, s, [ConsoleError "Failed to save contacts:"])
    end.
Proof.
  unfold saveContacts, tryCatch, bind, get, put, await, effect. simpl.
  by destruct (writeContactsFile w) as [[]|].
Qed.

Lemma contactName_run w res cleanNumber s sk :
  sock s = Some sk ->
  tryCatch (bind (callOnWhatsApp w (jid res))
              (fun info => ret (notifyName info cleanNumber)))
           (fun _ => ret cleanNumber) s
  = (Normal (contactNameOf w sk res cleanNumber), s, []).
Proof.
  intros Hsk. unfold tryCatch. rewrite bind_callOnWhatsApp, Hsk.
  unfold contactNameOf. by destruct (onWhatsApp w sk (jid res)).
Qed.

Lemma registered_sock w res s : sock (registered w res s) = sock s.
Proof. reflexivity. Qed.

(** The body of [startTrackingWhatsApp] when WhatsApp knows the number. *)
Lemma verifyAndTrack_found w n b s sk res rs :
  sock s = Some sk ->
  onWhatsApp w sk (targetJidOf n) = Normal (Some (res :: rs)) ->
  exists_ res = true ->
  verifyAndTrack w n b s
  = match getProfilePicture w (jid res) with
    | Thrown err =>
        (Normal tt, registered w res s,
         replayed s (jid res)
         ++ ConsoleError err
            :: (if b then [IoEmit (EvError (targetJidOf n) "Verification failed")]
                else []))
    | Normal ppUrl =>
        let announced :=
          [IoEmit (EvContactAdded (jid res) (cleanNumberOf n));
           IoEmit (EvProfilePic (jid res) ppUrl);
           IoEmit (EvContactName (jid res)
                     (contactNameOf w sk res (cleanNumberOf n)))] in
        match writeContactsFile w with
        | Normal _ =>
            (Normal tt,
             setContactsFile (Some (dom (trackers (registered w res s))))
               (registered w res s),
             replayed s (jid res) ++ announced)
        | Thrown _ =>
            (Normal tt, registered w res s,
             replayed s (jid res) ++ announced
             ++ [ConsoleError "Failed to save contacts:"])
        end
    end.
Proof.
  intros Hsk Hq Hex.
  assert (Hreg : setRegistry
            (alter startTracking (newRef s)
               (<[newRef s := setProbeMethod (globalProbeMethod s)
                                (newTracker (sock s) (jid res) (dateNow w))]>
                  (objects s)))
            (<[jid res := {| tracker := newRef s; platform := whatsapp |}]> (trackers s))
            s = registered w res s).
  { unfold registered, trackerFor. by rewrite alter_insert_eq. }
  unfold verifyAndTrack. cbv zeta. unfold tryCatch.
  rewrite bind_callOnWhatsApp, Hsk, Hq. cbv beta iota. rewrite Hex. cbv beta iota.
  rewrite bind_get. cbv zeta. rewrite bind_put, bind_replayHistory, bind_callTracker.
  change (fresh (dom (objects s))) with (newRef s).
  simpl objects. simpl trackers.
  match goal with
  | |- context [setRegistry (alter ?f ?r ?o) ?t (setRegistry ?o' ?t' s)] =>
      change (setRegistry (alter f r o) t (setRegistry o' t' s))
        with (setRegistry (alter f r o) t s)
  end.
  rewrite Hreg.
  change (replayed (setRegistry _ _ s) (jid res)) with (replayed s (jid res)).
  destruct (getProfilePicture w (jid res)) as [ppUrl|err].
  - rewrite (bind_pure (await (Normal ppUrl)) _ ppUrl) by reflexivity.
    erewrite (bind_pure _ _ _ _
                (contactName_run w res (cleanNumberOf n) (registered w res s) sk Hsk)).
    rewrite !bind_effect, saveContacts_run.
    destruct (writeContactsFile w) as [[]|]; unfold prepend; simpl; reflexivity.
  - unfold bind at 1, await at 1, prepend. simpl.
    destruct b; simpl; by rewrite app_nil_r.
Qed.

End TrackFacts.

Section LookupFacts.

Import Server Track Lookup.

Lemma answer_found w s n res :
  answer w s n = Found res ->
  exists sk rs,
    sock s = Some sk /\
    onWhatsApp w sk (targetJidOf n) = Normal (Some (res :: rs)) /\
    exists_ res = true.
Proof.
  unfold answer. destruct (sock s) as [sk|]; [|discriminate].
  destruct (onWhatsApp w sk (targetJidOf n)) as [[[|r rs]|]|] eqn:Hq; try discriminate.
  destruct (exists_ r) eqn:Hex; [|discriminate].
  intros [= <-]. by exists sk, rs.
Qed.

(** The body of [startTrackingWhatsApp] when the verification does not
    find the number: nothing changes, and the client may be told why. *)
Lemma verifyAndTrack_not_found w n b s :
  answer w s n = NotFound ->
  verifyAndTrack w n b s
  = (Normal tt, s,
     if b then [IoEmit (EvError (targetJidOf n) "Number not on WhatsApp")] else []).
Proof.
  unfold answer. intros H.
  unfold verifyAndTrack. cbv zeta. unfold tryCatch.
  rewrite bind_callOnWhatsApp.
  destruct (sock s) as [sk|]; [|discriminate].
  destruct (onWhatsApp w sk (targetJidOf n)) as [[[|r rs]|]|]; try discriminate.
  - by destruct b.
  - destruct (exists_ r); [discriminate|]. by destruct b.
  - by destruct b.
Qed.

Lemma verifyAndTrack_failed w n b s err :
  answer w s n = Failed err ->
  verifyAndTrack w n b s
  = (Normal tt, s,
     ConsoleError err
     :: (if b then [IoEmit (EvError (targetJidOf n) "Verification failed")] else [])).
Proof.
  unfold answer. intros H.
  unfold verifyAndTrack. cbv zeta. unfold tryCatch.
  rewrite bind_callOnWhatsApp.
  destruct (sock s) as [sk|].
  - destruct (onWhatsApp w sk (targetJidOf n)) as [[[|r rs]|]|e]; try discriminate.
    + destruct (exists_ r); discriminate.
    + injection H as <-. by destruct b.
  - injection H as <-. by destruct b.
Qed.

(** The three states [verifyAndTrack] can end in. *)
Lemma verifyAndTrack_state w n b s :
  let s' := stateOf (verifyAndTrack w n b s) in
  match answer w s n with
  | Found res =>
      s' = registered w res s \/
      s' = setContactsFile (Some (dom (trackers (registered w res s))))
             (registered w res s)
  | _ => s' = s
  end.
Proof.
  cbv zeta. destruct (answer w s n) as [res| |err] eqn:Ha.
  - destruct (answer_found w s n res Ha) as (sk & rs & Hsk & Hq & Hex).
    rewrite (verifyAndTrack_found w n b s sk res rs Hsk Hq Hex).
    destruct (getProfilePicture w (jid res)); [|by left].
    cbv zeta. destruct (writeContactsFile w); [by right | by left].
  - by rewrite (verifyAndTrack_not_found w n b s Ha).
  - by rewrite (verifyAndTrack_failed w n b s err Ha).
Qed.

Lemma verifyAndTrack_returns w n b s : returns (verifyAndTrack w n b s) = true.
Proof.
  destruct (answer w s n) as [res| |err] eqn:Ha.
  - destruct (answer_found w s n res Ha) as (sk & rs & Hsk & Hq & Hex).
    rewrite (verifyAndTrack_found w n b s sk res rs Hsk Hq Hex).
    destruct (getProfilePicture w (jid res)); [|done].
    cbv zeta. by destruct (writeContactsFile w).
  - by rewrite (verifyAndTrack_not_found w n b s Ha).
  - by rewrite (verifyAndTrack_failed w n b s err Ha).
Qed.

Lemma newRef_fresh s : objects s !! newRef s = None.
Proof.
  unfold newRef. apply not_elem_of_dom. apply is_fresh.
Qed.

Lemma startTrackingWhatsApp_new w n b s :
  trackers s !! targetJidOf n = None ->
  startTrackingWhatsApp w n b s = verifyAndTrack w n b s.
Proof.
  intros H. unfold startTrackingWhatsApp. cbv zeta. rewrite bind_get. by rewrite H.
Qed.

End LookupFacts.

(* ===================================================================== *)
(** ** Adding a contact *)
(* ===================================================================== *)

(** X1. A successful add-contact.  When the derived identity is not in
    the registry and WhatsApp reports the number as existing, the handler
    returns normally and the contact is registered under the jid WhatsApp
    reports (not the derived one), with a tracker object under a
    reference that was not in use; the tracker runs, holds the current
    socket and the current global probe method; every other registry
    entry and tracker object, and the history cache, are as before.  This
    holds whether or not the profile picture and the write of
    contacts.json succeed. *)
Theorem add_contact_registers
    (w : Server.World) (s : Server.State) (data : Server.AddContactData)
    (res : Server.OnWhatsAppResult)
    (Hnew : Server.trackers s !! Server.targetJidOf (Server.numberOf data) = None)
    (Hfound : Lookup.answer w s (Server.numberOf data) = Lookup.Found res) :
  let r := Server.onAddContact w data s in
  let s' := Server.stateOf r in
  let t := Track.trackerFor w res s in
  Server.returns r = true /\
  Server.trackers s'
    = <[Server.jid res := {| Server.tracker := Track.newRef s;
                             Server.platform := Server.whatsapp |}]>
        (Server.trackers s) /\
  Server.objects s' = <[Track.newRef s := t]> (Server.objects s) /\
  Server.objects s !! Track.newRef s = None /\
  Server.historyCache s' = Server.historyCache s /\
  Server.isTracking t = true /\
  Server.trackerJid t = Server.jid res /\
  Server.trackerSock t = Server.sock s /\
  Server.probeMethod t = Server.globalProbeMethod s.
Proof.
  intros r s' t. subst r s' t. unfold Server.onAddContact.
  rewrite (startTrackingWhatsApp_new w _ true s Hnew).
  split; [apply verifyAndTrack_returns|].
  pose proof (verifyAndTrack_state w (Server.numberOf data) true s) as Hs.
  cbv zeta in Hs. rewrite Hfound in Hs.
  split; [|split; [|split; [apply newRef_fresh|split; [|done]]]];
    by destruct Hs as [-> | ->].
Qed.

(** A formatted number is added at the server that tracks nothing. *)
Lemma add_contact_registers_witness :
  Server.trackers
    (Server.stateOf
       (Server.onAddContact Scenario.goodWorld
          (Server.AddNumber "+49 151 1234 5678") Scenario.connected))
  = <[ "4915112345678@s.whatsapp.net" :=
         {| Server.tracker := Track.newRef Scenario.connected;
            Server.platform := Server.whatsapp |} ]>
      (Server.trackers Scenario.connected).
Proof.
  refine (proj1 (proj2
            (add_contact_registers Scenario.goodWorld Scenario.connected
               (Server.AddNumber "+49 151 1234 5678")
               {| Server.exists_ := true; Server.jid := "4915112345678@s.whatsapp.net";
                  Server.notify := None |} _ _))).
  - vm_compute. reflexivity.
  - vm_compute. reflexivity.
Defined.

(** X2. What the clients see of a successful add-contact.  When the
    profile picture can be fetched, the handler first replays the cached
    history of the reported jid, oldest first and flagged as history,
    then announces the contact, its picture and its name, in this order;
    the name is the [notify] of a second lookup, or the clean number.  A
    failed write of contacts.json adds a log entry and nothing else;
    a successful one stores exactly the keys of the new registry. *)
Theorem add_contact_announces
    (w : Server.World) (s : Server.State) (data : Server.AddContactData)
    (res : Server.OnWhatsAppResult) (sk : nat) (ppUrl : option string)
    (Hnew : Server.trackers s !! Server.targetJidOf (Server.numberOf data) = None)
    (Hfound : Lookup.answer w s (Server.numberOf data) = Lookup.Found res)
    (Hsk : Server.sock s = Some sk)
    (Hpic : Server.getProfilePicture w (Server.jid res) = Server.Normal ppUrl) :
  let r := Server.onAddContact w data s in
  let s' := Server.stateOf r in
  let clean := Server.cleanNumberOf (Server.numberOf data) in
  let announced :=
    [Server.IoEmit (Server.EvContactAdded (Server.jid res) clean);
     Server.IoEmit (Server.EvProfilePic (Server.jid res) ppUrl);
     Server.IoEmit (Server.EvContactName (Server.jid res)
                      (Track.contactNameOf w sk res clean))] in
  match Server.writeContactsFile w with
  | Server.Normal _ =>
      Server.effectsOf r = Track.replayed s (Server.jid res) ++ announced /\
      Server.contactsFile s' = Some (dom (Server.trackers s'))
  | Server.Thrown _ =>
      Server.effectsOf r
      = Track.replayed s (Server.jid res) ++ announced
        ++ [Server.ConsoleError "Failed to save contacts:"] /\
      Server.contactsFile s' = Server.contactsFile s
  end.
Proof.
  intros r s' clean announced. subst r s' clean announced.
  unfold Server.onAddContact.
  rewrite (startTrackingWhatsApp_new w _ true s Hnew).
  destruct (answer_found w s _ res Hfound) as (sk' & rs & Hsk' & Hq & Hex).
  assert (sk' = sk) as -> by congruence.
  rewrite (verifyAndTrack_found w _ true s sk res rs Hsk Hq Hex), Hpic.
  cbv zeta. by destruct (Server.writeContactsFile w).
Qed.

(** The contact tracked before is removed and added again: its cached
    data point comes first. *)
Lemma add_contact_announces_witness :
  let s := Server.stateOf
             (Server.onRemoveContact Scenario.goodWorld "12345678900@s.whatsapp.net"
                (Server.stateOf
                   (Server.trackerReports Scenario.goodWorld 0 Scenario.sample
                      Scenario.tracking))) in
  Server.effectsOf (Server.onAddContact Scenario.goodWorld
                      (Server.AddNumber "12345678900") s)
  = [Server.IoEmit (Server.EvTrackerUpdate Scenario.point true);
     Server.IoEmit (Server.EvContactAdded "12345678900@s.whatsapp.net" "12345678900");
     Server.IoEmit (Server.EvProfilePic "12345678900@s.whatsapp.net" None);
     Server.IoEmit (Server.EvContactName "12345678900@s.whatsapp.net" "12345678900")].
Proof.
  intros s.
  refine (proj1 (add_contact_announces Scenario.goodWorld s
                   (Server.AddNumber "12345678900")
                   {| Server.exists_ := true; Server.jid := "12345678900@s.whatsapp.net";
                      Server.notify := None |} 0%nat None _ _ _ _)).
  - vm_compute. reflexivity.
  - vm_compute. reflexivity.
  - vm_compute. reflexivity.
  - reflexivity.
Defined.

(** X3. A failed verification leaves no trace.  When the derived identity
    is not in the registry and the verification does not find the number,
    the add-contact handler returns normally with the server state
    unchanged, so the request can be repeated; the clients get exactly one
    error event: "Number not on WhatsApp" when WhatsApp answered, and
    "Verification failed", after a log entry, when the lookup threw or the
    socket does not exist yet. *)
Theorem add_contact_failure
    (w : Server.World) (s : Server.State) (data : Server.AddContactData)
    (Hnew : Server.trackers s !! Server.targetJidOf (Server.numberOf data) = None) :
  let r := Server.onAddContact w data s in
  let tj := Server.targetJidOf (Server.numberOf data) in
  match Lookup.answer w s (Server.numberOf data) with
  | Lookup.Found _ => True
  | Lookup.NotFound =>
      r = (Server.Normal tt, s,
           [Server.IoEmit (Server.EvError tj "Number not on WhatsApp")])
  | Lookup.Failed err =>
      r = (Server.Normal tt, s,
           [Server.ConsoleError err;
            Server.IoEmit (Server.EvError tj "Verification failed")])
  end.
Proof.
  intros r tj. subst r tj. unfold Server.onAddContact.
  rewrite (startTrackingWhatsApp_new w _ true s Hnew).
  destruct (Lookup.answer w s (Server.numberOf data)) as [res| |err] eqn:Ha; [done| |].
  - by rewrite (verifyAndTrack_not_found w _ true s Ha).
  - by rewrite (verifyAndTrack_failed w _ true s err Ha).
Qed.

(** A number WhatsApp does not know, and an add before the socket
    exists. *)
Lemma add_contact_failure_witness :
  Server.onAddContact Worlds.nobodyThere (Server.AddNumber "000") Scenario.connected
  = (Server.Normal tt, Scenario.connected,
     [Server.IoEmit (Server.EvError "000@s.whatsapp.net" "Number not on WhatsApp")]) /\
  Server.onAddContact Scenario.goodWorld (Server.AddNumber "000")
    (Server.initialState ∅ [])
  = (Server.Normal tt, Server.initialState ∅ [],
     [Server.ConsoleError "TypeError";
      Server.IoEmit (Server.EvError "000@s.whatsapp.net" "Verification failed")]).
Proof.
  split.
  - refine (add_contact_failure Worlds.nobodyThere Scenario.connected
              (Server.AddNumber "000") _).
    vm_compute. reflexivity.
  - refine (add_contact_failure Scenario.goodWorld (Server.initialState ∅ [])
              (Server.AddNumber "000") _).
    vm_compute. reflexivity.
Defined.

(** X4. A failing profile picture half-adds the contact.  When the number
    is found but fetching the profile picture throws, the clients are
    told "Verification failed" and get no contact-added event, yet the
    tracker has been registered and started and contacts.json is not
    written; if WhatsApp reported the number under its derived identity,
    repeating the request is turned away as a duplicate. *)
Theorem profile_picture_failure_half_adds
    (w : Server.World) (s : Server.State) (data : Server.AddContactData)
    (res : Server.OnWhatsAppResult) (err : string)
    (Hnew : Server.trackers s !! Server.targetJidOf (Server.numberOf data) = None)
    (Hfound : Lookup.answer w s (Server.numberOf data) = Lookup.Found res)
    (Hpic : Server.getProfilePicture w (Server.jid res) = Server.Thrown err) :
  let r := Server.onAddContact w data s in
  let s' := Server.stateOf r in
  let tj := Server.targetJidOf (Server.numberOf data) in
  Server.effectsOf r
    = Track.replayed s (Server.jid res)
      ++ [Server.ConsoleError err;
          Server.IoEmit (Server.EvError tj "Verification failed")] /\
  s' = Track.registered w res s /\
  Server.contactsFile s' = Server.contactsFile s /\
  Server.trackers s' !! Server.jid res
    = Some {| Server.tracker := Track.newRef s; Server.platform := Server.whatsapp |} /\
  Server.isTracking <$> Server.objects s' !! Track.newRef s = Some true /\
  (Server.jid res = tj ->
   forall w2 : Server.World,
     Server.onAddContact w2 data s'
     = (Server.Normal tt, s',
        [Server.IoEmit (Server.EvError tj "Already tracking this contact")])).
Proof.
  intros r s' tj. subst r s' tj. unfold Server.onAddContact.
  rewrite (startTrackingWhatsApp_new w _ true s Hnew).
  destruct (answer_found w s _ res Hfound) as (sk & rs & Hsk & Hq & Hex).
  rewrite (verifyAndTrack_found w _ true s sk res rs Hsk Hq Hex), Hpic.
  unfold Server.stateOf, Server.effectsOf. simpl.
  repeat split.
  - apply lookup_insert_eq.
  - by rewrite lookup_insert_eq.
  - intros Hjid w2.
    apply (startTracking_duplicate w2 _ _
             {| Server.tracker := Track.newRef s; Server.platform := Server.whatsapp |}).
    simpl. rewrite <- Hjid. apply lookup_insert_eq.
Qed.

(** The picture of 4915112345678 cannot be fetched. *)
Lemma profile_picture_failure_half_adds_witness :
  Server.effectsOf
    (Server.onAddContact Worlds.noPicture (Server.AddNumber "4915112345678")
       Scenario.tracking)
  = [Server.ConsoleError "not-authorized";
     Server.IoEmit (Server.EvError "4915112345678@s.whatsapp.net" "Verification failed")].
Proof.
  refine (proj1 (profile_picture_failure_half_adds Worlds.noPicture Scenario.tracking
                   (Server.AddNumber "4915112345678")
                   {| Server.exists_ := true; Server.jid := "4915112345678@s.whatsapp.net";
                      Server.notify := None |} "not-authorized" _ _ _)).
  - vm_compute. reflexivity.
  - vm_compute. reflexivity.
  - reflexivity.
Defined.

(* ===================================================================== *)
(** ** Setting the probe method *)
(* ===================================================================== *)

Section ProbeMethodFacts.

Import Server Control.

Lemma setProbeMethod_idemp m t : setProbeMethod m (setProbeMethod m t) = setProbeMethod m t.
Proof. reflexivity. Qed.

Lemma fold_setProbeMethod_lookup m (l : list (string * TrackerEntry))
    (o : gmap nat WhatsAppTracker) (r : nat) :
  foldr (fun je o => alter (setProbeMethod m) (tracker je.2) o) o l !! r
  = if decide (r ∈ (fun je => tracker je.2) <$> l)
    then setProbeMethod m <$> o !! r
    else o !! r.
Proof.
  induction l as [|je l IH].
  - rewrite decide_False; [done | apply not_elem_of_nil].
  - rewrite fmap_cons. cbn [foldr].
    destruct (decide (tracker je.2 = r)) as [Heq|Hne].
    + rewrite Heq, lookup_alter_eq, IH.
      rewrite (decide_True (P := r ∈ r :: _)) by (by left).
      destruct (decide _); [|done].
      by destruct (o !! r).
    + rewrite lookup_alter_ne by done. rewrite IH.
      destruct (decide (r ∈ (fun je => tracker je.2) <$> l)) as [Hin|Hnin].
      * rewrite decide_True; [done | by right].
      * rewrite decide_False; [done|].
        intros [?|?]%elem_of_cons; [congruence | done].
Qed.

Lemma registered_ref (s : State) (r : nat) :
  r ∈ (fun je => tracker je.2) <$> map_to_list (trackers s)
  <-> exists j e, trackers s !! j = Some e /\ tracker e = r.
Proof.
  rewrite list_elem_of_fmap. split.
  - intros ([j e] & -> & Hin). apply elem_of_map_to_list in Hin. by exists j, e.
  - intros (j & e & Hje & <-). exists (j, e). split; [done|].
    by apply elem_of_map_to_list.
Qed.

Lemma setMethodOfRegistered_lookup m s r :
  setMethodOfRegistered m s !! r
  = if decide (r ∈ (fun je => tracker je.2) <$> map_to_list (trackers s))
    then setProbeMethod m <$> objects s !! r
    else objects s !! r.
Proof. apply fold_setProbeMethod_lookup. Qed.

Lemma parseProbeMethod_spec method :
  match parseProbeMethod method with
  | Some Delete => method = "delete"
  | Some Reaction => method = "reaction"
  | None => method <> "delete" /\ method <> "reaction"
  end.
Proof.
  unfold parseProbeMethod.
  destruct (String.eqb_spec method "delete") as [->|H1]; [done|].
  destruct (String.eqb_spec method "reaction") as [->|H2]; done.
Qed.

End ProbeMethodFacts.

(** X5. Setting the probe method.  A method other than 'delete' and
    'reaction' is ignored: the state is unchanged and nothing is sent.
    A valid method becomes the global method and is announced to all
    clients; every tracker object a registry entry refers to gets it and
    is otherwise unchanged, every other tracker object (a removed one)
    is left as it was, registry and history are untouched, and a tracker
    made afterwards starts with that method. *)
Theorem set_probe_method (method : string) (s : Server.State) :
  let s' := (Control.onSetProbeMethod method s).1 in
  let out := (Control.onSetProbeMethod method s).2 in
  match Control.parseProbeMethod method with
  | None =>
      method <> "delete" /\ method <> "reaction" /\ s' = s /\ out = []
  | Some m =>
      (method = "delete" \/ method = "reaction") /\
      out = [Control.ToAll (Control.ProbeMethodIs m)] /\
      Server.globalProbeMethod s' = m /\
      Server.trackers s' = Server.trackers s /\
      Server.historyCache s' = Server.historyCache s /\
      (forall j e, Server.trackers s !! j = Some e ->
         Server.objects s' !! Server.tracker e
         = Server.setProbeMethod m <$> Server.objects s !! Server.tracker e) /\
      (forall ref,
         (forall j e, Server.trackers s !! j = Some e -> Server.tracker e <> ref) ->
         Server.objects s' !! ref = Server.objects s !! ref) /\
      (forall w res, Server.probeMethod (Track.trackerFor w res s') = m)
  end.
Proof.
  cbv zeta. unfold Control.onSetProbeMethod.
  pose proof (parseProbeMethod_spec method) as Hp.
  destruct (Control.parseProbeMethod method) as [m|]; simpl.
  - split; [destruct m; auto|].
    repeat split.
    + intros j e Hje. rewrite setMethodOfRegistered_lookup.
      rewrite decide_True; [done|]. apply registered_ref. by exists j, e.
    + intros ref Hno. rewrite setMethodOfRegistered_lookup.
      rewrite decide_False; [done|]. rewrite registered_ref.
      intros (j & e & Hje & Href). by apply (Hno j e).
  - destruct Hp. done.
Qed.

(* ===================================================================== *)
(** ** Invariants of the server *)
(* ===================================================================== *)

Section HandlersKeep.

Import Server Track Lookup.

Context (I : State -> Prop) (w : World).

(** What [I] has to withstand: the two ways the handlers set the
    connection fields, the registration of a tracker, and the write of
    contacts.json. *)
Hypothesis keep_flags : forall s up qr,
  I s -> I (setConnection (sock s) (socketsMade s) up qr s).
Hypothesis keep_socket : forall s up qr,
  I s -> I (setConnection (Some (socketsMade s)) (S (socketsMade s)) up qr s).
Hypothesis keep_registered : forall s res,
  is_Some (sock s) -> I s -> I (registered w res s).
Hypothesis keep_contacts : forall s f, I s -> I (setContactsFile f s).

Lemma kept_by_verifyAndTrack n b : Keeps I (verifyAndTrack w n b).
Proof.
  intros s Hs. pose proof (verifyAndTrack_state w n b s) as H. cbv zeta in H.
  destruct (answer w s n) as [res| |err] eqn:Ha; try by rewrite H.
  destruct (answer_found w s n res Ha) as (sk & rs & Hsk & _).
  assert (Hreg : I (registered w res s)).
  { apply keep_registered; [by rewrite Hsk | done]. }
  destruct H as [-> | ->]; [done | by apply keep_contacts].
Qed.

Lemma kept_by_startTrackingWhatsApp n b : Keeps I (startTrackingWhatsApp w n b).
Proof.
  unfold startTrackingWhatsApp. cbv zeta. apply keeps_get_bind. intros s Hs.
  destruct (trackers s !! targetJidOf n).
  - by apply keeps_when; [apply keeps_effect|].
  - by apply kept_by_verifyAndTrack.
Qed.

Lemma kept_by_restoreTrackers : Keeps I (restoreTrackers w).
Proof.
  unfold restoreTrackers. apply keeps_get_bind. intros s Hs.
  cbv zeta.
  match goal with
  | |- I (stateOf (?m ?x)) => cut (Keeps I m); [intros HK; by apply HK|]
  end.
  apply keeps_bind.
  - apply keeps_forEach. intros; apply keeps_effect.
  - intros _. apply keeps_forEach. intros; apply kept_by_verifyAndTrack.
Qed.

Lemma kept_by_connectToWhatsApp : Keeps I connectToWhatsApp.
Proof.
  unfold connectToWhatsApp. apply keeps_get_bind. intros s Hs.
  by apply keep_socket.
Qed.

Lemma kept_by_onConnectionUpdate u : Keeps I (onConnectionUpdate w u).
Proof.
  unfold onConnectionUpdate. apply keeps_bind.
  - destruct (qr u) as [[|c r]|]; try apply keeps_ret.
    apply keeps_bind; [apply keeps_effect|]. intros _.
    apply keeps_get_bind. intros s Hs. rewrite stateOf_put_bind.
    by apply keep_flags.
  - intros _. destruct (connection u) as [[| |]|]; try apply keeps_ret.
    + apply keeps_get_bind. intros s Hs. rewrite stateOf_put_bind.
      match goal with
      | |- I (stateOf (?m ?x)) => cut (Keeps I m); [intros HK; apply HK|]
      end.
      * by apply keep_flags.
      * apply keeps_bind; [apply keeps_effect|]. intros _.
        apply keeps_when, kept_by_connectToWhatsApp.
    + apply keeps_get_bind. intros s Hs. rewrite stateOf_put_bind.
      match goal with
      | |- I (stateOf (?m ?x)) => cut (Keeps I m); [intros HK; apply HK|]
      end.
      * by apply keep_flags.
      * apply keeps_bind; [apply keeps_effect|]. intros _.
        apply keeps_bind; [apply keeps_effect|]. intros _.
        apply kept_by_restoreTrackers.
Qed.

End HandlersKeep.

Section ReportFacts.

Import Server.

(** A report changes the history cache and the history file, and
    nothing else. *)
Lemma trackerReports_state w ref u s :
  stateOf (trackerReports w ref u s) = s \/
  exists t h f,
    objects s !! ref = Some t /\ isTracking t = true /\ devices u <> [] /\
    h = <[trackerJid t :=
            pushBounded (historyCache s !! trackerJid t)
              {| dpJid := trackerJid t; dpPlatform := whatsapp; dpUpdate := u;
                 timestamp := dateNow w |}]> (historyCache s) /\
    stateOf (trackerReports w ref u s) = setHistoryFile f (setHistoryCache h s).
Proof.
  unfold trackerReports. rewrite bind_get.
  destruct (objects s !! ref) as [t|] eqn:Ht; [|by left].
  destruct (isTracking t) eqn:Htr; [|by left].
  unfold onUpdate. cbv zeta.
  destruct (devices u) as [|d ds] eqn:Hd; [by left|].
  right. simpl. unfold when, bind at 1. rewrite appendHistory_run. cbv zeta.
  destruct (writeHistoryFile w); simpl.
  - eexists t, _, _. by repeat (split; [done|]).
  - eexists t, _, (historyFile s). by repeat (split; [done|]).
Qed.

End ReportFacts.

Section WellFormedFacts.

Import Server Track Run.

Lemma wellFormed_initial history contacts : WellFormed (initialState history contacts).
Proof. split; [done|]. intros j e H. simpl in H. by rewrite lookup_empty in H. Qed.

Lemma wellFormed_flags s up q :
  WellFormed s -> WellFormed (setConnection (sock s) (socketsMade s) up q s).
Proof. done. Qed.

Lemma wellFormed_socket s up q :
  WellFormed s ->
  WellFormed (setConnection (Some (socketsMade s)) (S (socketsMade s)) up q s).
Proof.
  intros [Hsock Hreg]. split; simpl.
  - intros k [= <-]. lia.
  - intros j e Hje. destruct (Hreg j e Hje) as (t & Ht & Hj & Htr & Hm & k & Hk & Hlt).
    exists t. repeat split; try done. exists k. split; [done | lia].
Qed.

Lemma wellFormed_contacts s f : WellFormed s -> WellFormed (setContactsFile f s).
Proof. done. Qed.

Lemma wellFormed_registered w res s :
  is_Some (sock s) -> WellFormed s -> WellFormed (registered w res s).
Proof.
  intros [sk Hsk] [Hsock Hreg]. split; [done|]. simpl.
  intros j e Hje.
  destruct (decide (jid res = j)) as [<-|Hne].
  - rewrite lookup_insert_eq in Hje. injection Hje as <-. simpl.
    exists (trackerFor w res s). rewrite lookup_insert_eq.
    repeat split. exists sk. split; [done | by apply Hsock].
  - rewrite lookup_insert_ne in Hje by done.
    destruct (Hreg j e Hje) as (t & Ht & Hrest).
    exists t. split; [|done].
    rewrite lookup_insert_ne; [done|].
    intros Heq. rewrite <- Heq, newRef_fresh in Ht. discriminate.
Qed.

Lemma wellFormed_remove w j s :
  WellFormed s -> WellFormed (stateOf (onRemoveContact w j s)).
Proof.
  intros [Hsock Hreg].
  destruct (trackers s !! j) as [e|] eqn:Hje.
  - rewrite (onRemoveContact_tracked w j s e Hje). cbv zeta.
    assert (H : WellFormed
              (setRegistry (alter stopTracking (tracker e) (objects s))
                 (delete j (trackers s)) s)).
    { split; [done|]. simpl. intros j' e' Hje'.
      destruct (decide (j = j')) as [<-|Hne]; [by rewrite lookup_delete_eq in Hje'|].
      rewrite lookup_delete_ne in Hje' by done.
      destruct (Hreg j' e' Hje') as (t' & Ht' & Hj' & Hrest).
      destruct (Hreg j e Hje) as (t & Ht & Hj & _).
      exists t'. split; [|done].
      rewrite lookup_alter_ne; [done|].
      intros Heq. rewrite Heq in Ht. congruence. }
    by destruct (writeContactsFile w).
  - by rewrite (onRemoveContact_unknown w j s Hje).
Qed.

Lemma wellFormed_setProbeMethod method s :
  WellFormed s -> WellFormed (Control.onSetProbeMethod method s).1.
Proof.
  intros [Hsock Hreg]. unfold Control.onSetProbeMethod.
  destruct (Control.parseProbeMethod method) as [m|]; [|done].
  split; [done|]. simpl. intros j e Hje.
  destruct (Hreg j e Hje) as (t & Ht & Hj & Htr & Hm & Hk).
  exists (setProbeMethod m t). rewrite setMethodOfRegistered_lookup, Ht.
  rewrite decide_True by (apply registered_ref; by exists j, e).
  done.
Qed.

Lemma wellFormed_report w ref u s :
  WellFormed s -> WellFormed (stateOf (trackerReports w ref u s)).
Proof.
  intros H. destruct (trackerReports_state w ref u s)
    as [-> | (t & h & f & _ & _ & _ & _ & ->)]; done.
Qed.

Lemma step_wellFormed s wi : WellFormed s -> WellFormed (step s wi).
Proof.
  intros H. destruct wi as [w i]. unfold step. simpl.
  destruct i as [|u|data|j|method|ref u].
  - apply (kept_by_connectToWhatsApp WellFormed); [|done]. apply wellFormed_socket.
  - apply (kept_by_onConnectionUpdate WellFormed w); try done.
    + apply wellFormed_socket.
    + intros; by apply wellFormed_registered.
  - unfold onAddContact.
    apply (kept_by_startTrackingWhatsApp WellFormed w); try done.
    intros; by apply wellFormed_registered.
  - by apply wellFormed_remove.
  - by apply wellFormed_setProbeMethod.
  - by apply wellFormed_report.
Qed.

Lemma run_wellFormed inputs : forall s, WellFormed s -> WellFormed (run s inputs).
Proof.
  induction inputs as [|wi inputs IH]; intros s H; simpl; [done|].
  apply IH. by apply step_wellFormed.
Qed.

End WellFormedFacts.

(** X7. The registry stays well formed.  However the server has been
    driven since it loaded, every contact in the registry has a tracker
    object in the store that was made for that very jid, runs, uses the
    current global probe method and holds a socket that
    [connectToWhatsApp] has made; two contacts never share a tracker
    object. *)
Theorem registry_well_formed
    (history : gmap string (list Server.DataPoint)) (contacts : list string)
    (inputs : list (Server.World * Run.Input)) :
  let s := Run.run (Server.initialState history contacts) inputs in
  (forall j e, Server.trackers s !! j = Some e ->
     exists t,
       Server.objects s !! Server.tracker e = Some t /\
       Server.trackerJid t = j /\
       Server.isTracking t = true /\
       Server.probeMethod t = Server.globalProbeMethod s /\
       exists k, Server.trackerSock t = Some k /\ (k < Server.socketsMade s)%nat) /\
  (forall j1 j2 e1 e2,
     Server.trackers s !! j1 = Some e1 -> Server.trackers s !! j2 = Some e2 ->
     Server.tracker e1 = Server.tracker e2 -> j1 = j2).
Proof.
  intros s.
  assert (H : Run.WellFormed s) by apply run_wellFormed, wellFormed_initial.
  destruct H as [_ Hreg]. split; [exact Hreg|].
  intros j1 j2 e1 e2 H1 H2 Heq.
  destruct (Hreg j1 e1 H1) as (t1 & Ht1 & Hj1 & _).
  destruct (Hreg j2 e2 H2) as (t2 & Ht2 & Hj2 & _).
  rewrite Heq in Ht1. congruence.
Qed.

Section WellFiledFacts.

Import Server Track Run History.






End WellFiledFacts.



(** X9. The cache keeps the latest data points.  After any sequence of
    appends, whatever the disk does, the array of a contact is the old
    array followed by the data points appended for that contact, cut down
    from the front to the last [n] elements, where [n] is 1001 or the
    length of the old array if that was longer: nothing is reordered,
    nothing but the oldest entries is dropped, appends for other contacts
    do not interfere, and an array that was longer than 1001 when it was
    loaded keeps its length for ever. *)
Theorem history_keeps_latest
    (s : Server.State) (appends : list (Server.World * string * Server.DataPoint))
    (j : string) :
  let old := History.historyOf s j in
  let new := History.historyOf (Server.stateOf (Server.appendAll appends s)) j in
  let added := History.pointsFor j appends in
  new = History.lastN (Nat.max (List.length old) Server.historyCap) (old ++ added) /\
  List.length new
  = (if decide (List.length old <= Server.historyCap)%nat
     then Nat.min (List.length old + List.length added) Server.historyCap
     else List.length old).
Proof.
  cbv zeta. rewrite historyOf_appendAll. split; [done|].
  rewrite lastN_length, length_app.
  destruct (decide _); lia.
Qed.

(** A history of 1005 data points stays at 1005. *)
Example oversized_history_stays :
  Server.historyLength
    (Server.stateOf
       (Server.appendAll (repeat (Scenario.goodWorld, "12345678900@s.whatsapp.net",
                                  Scenario.point) 7) Worlds.oversized))
    "12345678900@s.whatsapp.net" = 1005%nat.
Proof. vm_compute. reflexivity. Qed.

Section ReconnectMore.

Import Server Track Lookup Run.

Lemma stateOf_forEach_cons {A} (f : A -> M unit) x l s :
  returns (f x s) = true ->
  stateOf (forEach (x :: l) f s) = stateOf (forEach l f (stateOf (f x s))).
Proof.
  intros Hr. simpl. unfold bind, returns, stateOf in *.
  destruct (f x s) as [[[[]|err] s1] o1]; simpl in *; [|discriminate].
  by destruct (forEach l f s1) as [[r s2] o2].
Qed.

Lemma stateOf_forEach_effects {A} (l : list A) (f : A -> Effect) s :
  stateOf (forEach l (fun x => effect (f x)) s) = s.
Proof. by rewrite forEach_effects. Qed.

(** Restoring a list of saved contacts restores each one that WhatsApp
    still reports under its own jid. *)
Lemma forEach_restores w j sk l : forall s,
  targetJidOf (JsString.beforeAt j) = j ->
  (exists res rs, onWhatsApp w sk j = Normal (Some (res :: rs)) /\
                  exists_ res = true /\ jid res = j) ->
  sock s = Some sk ->
  is_Some (trackers s !! j) \/ j ∈ l ->
  is_Some (trackers (stateOf
     (forEach l (fun c => verifyAndTrack w (JsString.beforeAt c) false) s)) !! j).
Proof.
  intros s Hcanon (res & rs & Hq & Hex & Hjid).
  revert s. induction l as [|c l IH]; intros s Hsk Hor.
  - destruct Hor as [H|H]; [done | by apply elem_of_nil in H].
  - rewrite stateOf_forEach_cons by apply verifyAndTrack_returns.
    apply IH.
    + apply (kept_by_verifyAndTrack (fun s' => sock s' = Some sk) w); done.
    + destruct Hor as [H|H].
      * left. apply (kept_by_verifyAndTrack (fun s' => is_Some (trackers s' !! j)) w);
          try done.
        intros s1 r1 _ [e He]. simpl.
        destruct (decide (jid r1 = j)) as [<-|Hne].
        -- rewrite lookup_insert_eq. by eexists.
        -- rewrite lookup_insert_ne by done. by exists e.
      * apply elem_of_cons in H as [<-|H]; [|by right].
        left. pose proof (verifyAndTrack_state w (JsString.beforeAt j) false s) as Hs.
        cbv zeta in Hs.
        assert (Ha : answer w s (JsString.beforeAt j) = Found res).
        { unfold answer. by rewrite Hsk, Hcanon, Hq, Hex. }
        rewrite Ha in Hs.
        destruct Hs as [-> | ->]; simpl; rewrite Hjid, lookup_insert_eq; by eexists.
Qed.

Lemma stateOf_bind_normal {A B} (m : M A) (k : A -> M B) s a s1 o :
  m s = (Normal a, s1, o) -> stateOf (bind m k s) = stateOf (k a s1).
Proof.
  intros H. unfold bind, stateOf. rewrite H.
  by destruct (k a s1) as [[r s2] o2].
Qed.

Lemma restoreTrackers_restores w j sk s :
  j ∈ initialContacts s ->
  targetJidOf (JsString.beforeAt j) = j ->
  (exists res rs, onWhatsApp w sk j = Normal (Some (res :: rs)) /\
                  exists_ res = true /\ jid res = j) ->
  sock s = Some sk ->
  is_Some (trackers (stateOf (restoreTrackers w s)) !! j).
Proof.
  intros Hin Hcanon Hworld Hsk.
  unfold restoreTrackers. rewrite stateOf_get_bind. cbv zeta.
  erewrite stateOf_bind_normal by apply forEach_effects.
  apply (forEach_restores w j sk); try done.
  destruct (trackers s !! j) as [e|] eqn:Hje; [left; by eexists|].
  right. apply list_elem_of_filter. split; [by rewrite Hcanon|].
  apply list_elem_of_filter. by split.
Qed.

Lemma open_restores w j sk s :
  j ∈ initialContacts s ->
  targetJidOf (JsString.beforeAt j) = j ->
  (exists res rs, onWhatsApp w sk j = Normal (Some (res :: rs)) /\
                  exists_ res = true /\ jid res = j) ->
  sock s = Some sk ->
  is_Some (trackers (stateOf (onConnectionUpdate w openUpdate s)) !! j).
Proof.
  intros Hin Hcanon Hworld Hsk.
  assert (Heq : stateOf (onConnectionUpdate w openUpdate s)
                = stateOf (restoreTrackers w
                             (setConnection (sock s) (socketsMade s) true None s))).
  { unfold onConnectionUpdate, openUpdate, bind, get, put, effect, ret, stateOf.
    simpl. by destruct (restoreTrackers w _) as [[r s2] o2]. }
  rewrite Heq. by apply (restoreTrackers_restores w j sk).
Qed.

End ReconnectMore.

Section RemoveFacts.

Import Server.

Lemma onRemoveContact_frame w j s :
  let s' := stateOf (onRemoveContact w j s) in
  trackers s' = delete j (trackers s) /\
  sock s' = sock s /\ socketsMade s' = socketsMade s /\
  initialContacts s' = initialContacts s.
Proof.
  cbv zeta. destruct (trackers s !! j) as [e|] eqn:Hje.
  - rewrite (onRemoveContact_tracked w j s e Hje). cbv zeta.
    by destruct (writeContactsFile w).
  - rewrite (onRemoveContact_unknown w j s Hje). simpl.
    by rewrite delete_id.
Qed.

End RemoveFacts.

(** X10. A reconnection strands every tracker.  In every state the
    server can reach, when the connection closes for a reason other than
    a logout, the handler replaces [sock] by a socket made anew, and
    every contact of the registry is left with a running tracker that
    holds another, earlier socket: none of them is on the connection
    that is about to open. *)
Theorem close_strands_trackers
    (history : gmap string (list Server.DataPoint)) (contacts : list string)
    (inputs : list (Server.World * Run.Input))
    (w : Server.World) (status : option Z)
    (Hstatus : status <> Some Server.loggedOut) :
  let s := Run.run (Server.initialState history contacts) inputs in
  let s' := Server.stateOf (Server.onConnectionUpdate w (Server.closeUpdate status) s) in
  Server.sock s' = Some (Server.socketsMade s) /\
  Server.trackers s' = Server.trackers s /\
  forall j e, Server.trackers s' !! j = Some e ->
    exists t k,
      Server.objects s' !! Server.tracker e = Some t /\
      Server.isTracking t = true /\
      Server.trackerSock t = Some k /\
      Some k <> Server.sock s'.
Proof.
  intros s s'. subst s'. rewrite onConnectionUpdate_close.
  unfold Server.stateOf, Server.afterClose. simpl.
  rewrite bool_decide_eq_false_2 by done. simpl.
  split; [done|]. split; [done|].
  assert (H : Run.WellFormed s) by apply run_wellFormed, wellFormed_initial.
  destruct H as [_ Hreg].
  intros j e Hje. destruct (Hreg j e Hje) as (t & Ht & _ & Htr & _ & k & Hk & Hlt).
  exists t, k. repeat split; try done.
  intros [= ->]. lia.
Qed.

(** The server that tracks 12345678900 loses its connection. *)
Lemma close_strands_trackers_witness :
  let s := Run.run (Server.initialState ∅ [])
             [(Scenario.goodWorld, Run.ModuleLoaded);
              (Scenario.goodWorld, Run.ConnectionUpdated Server.openUpdate);
              (Scenario.goodWorld, Run.AddContact (Server.AddNumber "+1 (234) 567-8900"))] in
  Server.sock
    (Server.stateOf
       (Server.onConnectionUpdate Scenario.goodWorld (Server.closeUpdate (Some 428%Z)) s))
  = Some (Server.socketsMade s).
Proof.
  intros s.
  refine (proj1 (close_strands_trackers ∅ []
                   [(Scenario.goodWorld, Run.ModuleLoaded);
                    (Scenario.goodWorld, Run.ConnectionUpdated Server.openUpdate);
                    (Scenario.goodWorld,
                     Run.AddContact (Server.AddNumber "+1 (234) 567-8900"))]
                   Scenario.goodWorld (Some 428%Z) _)).
  discriminate.
Defined.

(** X11. A removed contact comes back.  [initialContacts] is read once
    when the module loads and remove-contact does not touch it: when a
    contact that was saved at that time is removed, it is out of the
    registry, and at the next reconnection the restore loop tracks it
    again, provided its jid is in the derived form and WhatsApp still
    reports it under that jid. *)
Theorem removed_contact_returns
    (w0 w : Server.World) (s : Server.State) (status : option Z) (j : string)
    (Hsaved : j ∈ Server.initialContacts s)
    (Hcanon : Server.targetJidOf (JsString.beforeAt j) = j)
    (Hsock : is_Some (Server.sock s))
    (Hworld : forall sk, exists res rs,
        Server.onWhatsApp w sk j = Server.Normal (Some (res :: rs)) /\
        Server.exists_ res = true /\ Server.jid res = j) :
  let s1 := Server.stateOf (Server.onRemoveContact w0 j s) in
  let s2 := Server.stateOf (Server.reconnect w status s1) in
  Server.trackers s1 !! j = None /\
  is_Some (Server.trackers s2 !! j).
Proof.
  intros s1 s2. subst s1 s2.
  destruct (onRemoveContact_frame w0 j s) as (Htr & Hsk & Hmade & Hic).
  split; [rewrite Htr; apply lookup_delete_eq|].
  rewrite stateOf_reconnect.
  destruct Hsock as [sk0 Hsk0].
  set (s1 := Server.stateOf (Server.onRemoveContact w0 j s)) in *.
  assert (Hsc : exists sk, Server.sock (Server.afterClose status s1) = Some sk).
  { unfold Server.afterClose. destruct (bool_decide _); simpl; [|by eexists].
    rewrite Hsk, Hsk0. by eexists. }
  destruct Hsc as [sk Hsc].
  apply (open_restores w j sk); try done.
  destruct (afterClose_registry status s1) as (_ & _ & -> & _). by rewrite Hic.
Qed.

(** The saved contact 12345678900 is removed, and the connection is
    lost and found again. *)
Lemma removed_contact_returns_witness :
  is_Some
    (Server.trackers
       (Server.stateOf
          (Server.reconnect Scenario.goodWorld (Some 428%Z)
             (Server.stateOf
                (Server.onRemoveContact Scenario.fullDisk "12345678900@s.whatsapp.net"
                   Scenario.restoring))))
     !! "12345678900@s.whatsapp.net").
Proof.
  refine (proj2 (removed_contact_returns Scenario.fullDisk Scenario.goodWorld
                   Scenario.restoring (Some 428%Z) "12345678900@s.whatsapp.net"
                   _ _ _ _)).
  - apply list_elem_of_In. simpl. by left.
  - vm_compute. reflexivity.
  - vm_compute. by eexists.
  - intros sk. eexists _, _. simpl. repeat split.
Defined.

(** X12. Re-adding under the reported jid leaks a tracker.  The
    duplicate guard looks up the derived identity, the registry is keyed
    by the jid WhatsApp reports.  When a number passes the guard and is
    reported under a jid that is already tracked, the entry of that jid
    is replaced by a new tracker, and the tracker it referred to stays in
    the store as it was; a later remove-contact for the jid stops only
    the new one, so the first, if it was running, still reports, and its
    reports are still sent to the clients. *)
Theorem readd_under_reported_jid_leaks
    (w w2 : Server.World) (s : Server.State) (data : Server.AddContactData)
    (res : Server.OnWhatsAppResult)
    (e0 : Server.TrackerEntry) (t0 : Server.WhatsAppTracker)
    (Hnew : Server.trackers s !! Server.targetJidOf (Server.numberOf data) = None)
    (Hfound : Lookup.answer w s (Server.numberOf data) = Lookup.Found res)
    (Hold : Server.trackers s !! Server.jid res = Some e0)
    (Hobj : Server.objects s !! Server.tracker e0 = Some t0)
    (Hruns : Server.isTracking t0 = true) :
  let s1 := Server.stateOf (Server.onAddContact w data s) in
  let s2 := Server.stateOf (Server.onRemoveContact w2 (Server.jid res) s1) in
  Server.trackers s1 !! Server.jid res
    = Some {| Server.tracker := Track.newRef s; Server.platform := Server.whatsapp |} /\
  Track.newRef s <> Server.tracker e0 /\
  Server.objects s1 !! Server.tracker e0 = Some t0 /\
  Server.trackers s2 !! Server.jid res = None /\
  Server.objects s2 !! Server.tracker e0 = Some t0 /\
  forall (w3 : Server.World) (u : Server.UpdateData),
    last (Server.effectsOf (Server.trackerReports w3 (Server.tracker e0) u s2))
    = Some (Server.IoEmit
              (Server.EvTrackerUpdate
                 {| Server.dpJid := Server.trackerJid t0;
                    Server.dpPlatform := Server.whatsapp;
                    Server.dpUpdate := u; Server.timestamp := Server.dateNow w3 |}
                 false)).
Proof.
  intros s1 s2.
  assert (Hne : Track.newRef s <> Server.tracker e0).
  { intros Heq. rewrite <- Heq, newRef_fresh in Hobj. discriminate. }
  assert (Hs1 : Server.trackers s1
                = <[Server.jid res := {| Server.tracker := Track.newRef s;
                                         Server.platform := Server.whatsapp |}]>
                    (Server.trackers s) /\
                Server.objects s1
                = <[Track.newRef s := Track.trackerFor w res s]> (Server.objects s)).
  { subst s1. unfold Server.onAddContact.
    rewrite (startTrackingWhatsApp_new w _ true s Hnew).
    pose proof (verifyAndTrack_state w (Server.numberOf data) true s) as Hs.
    cbv zeta in Hs. rewrite Hfound in Hs. by destruct Hs as [-> | ->]. }
  destruct Hs1 as [Htr1 Hob1].
  assert (H1 : Server.trackers s1 !! Server.jid res
               = Some {| Server.tracker := Track.newRef s;
                         Server.platform := Server.whatsapp |}).
  { rewrite Htr1. apply lookup_insert_eq. }
  assert (H2 : Server.objects s1 !! Server.tracker e0 = Some t0).
  { rewrite Hob1. by rewrite lookup_insert_ne. }
  assert (Hs2 : Server.trackers s2 = delete (Server.jid res) (Server.trackers s1) /\
                Server.objects s2
                = alter Server.stopTracking (Track.newRef s) (Server.objects s1)).
  { subst s2. rewrite (onRemoveContact_tracked w2 _ s1 _ H1). cbv zeta.
    by destruct (Server.writeContactsFile w2). }
  destruct Hs2 as [Htr2 Hob2].
  assert (H3 : Server.objects s2 !! Server.tracker e0 = Some t0).
  { rewrite Hob2. by rewrite lookup_alter_ne. }
  repeat split; try done.
  - rewrite Htr2. apply lookup_delete_eq.
  - intros w3 u. unfold Server.trackerReports. rewrite bind_get, H3, Hruns.
    unfold Server.onUpdate, Server.when, Server.bind.
    destruct (0 <? _)%nat; [|reflexivity].
    rewrite appendHistory_run. cbv zeta.
    destruct (Server.writeHistoryFile w3); reflexivity.
Qed.

(** Another spelling that WhatsApp reports under the tracked jid. *)
Lemma readd_under_reported_jid_leaks_witness :
  let s1 := Server.stateOf
              (Server.onAddContact Worlds.renaming (Server.AddNumber "1 234 567 890 0 0")
                 Scenario.tracking) in
  Server.trackers s1 !! "12345678900@s.whatsapp.net"
  = Some {| Server.tracker := Track.newRef Scenario.tracking;
            Server.platform := Server.whatsapp |}.
Proof.
  intros s1.
  refine (proj1 (readd_under_reported_jid_leaks Worlds.renaming Scenario.goodWorld
                   Scenario.tracking (Server.AddNumber "1 234 567 890 0 0")
                   {| Server.exists_ := true; Server.jid := "12345678900@s.whatsapp.net";
                      Server.notify := Some "Ada" |}
                   {| Server.tracker := 0%nat; Server.platform := Server.whatsapp |}
                   Scenario.itsTracker _ _ _ _ _)).
  - vm_compute. reflexivity.
  - vm_compute. reflexivity.
  - vm_compute. reflexivity.
  - vm_compute. reflexivity.
  - reflexivity.
Defined.

(* ===================================================================== *)
(** ** The client's view of the connection *)
(* ===================================================================== *)

Section ClientFacts.

Import Client.

Lemma run_app a es1 es2 : run a (es1 ++ es2) = run (run a es1) es2.
Proof. unfold run. apply fold_left_app. Qed.

Lemma run_quiet es : forall a,
  Forall quiet es -> connectionState (run a es) = connectionState a.
Proof.
  induction es as [|e es IH]; intros a H; [done|].
  inversion H as [|? ? He Hes]; subst. simpl. rewrite (IH _ Hes).
  by destruct He as [-> | ->].
Qed.

Lemma run_no_disconnect es : forall a,
  Disconnect ∉ es -> whatsapp (connectionState a) = true ->
  whatsapp (connectionState (run a es)) = true.
Proof.
  induction es as [|e es IH]; intros a Hno Ha; [done|].
  simpl. apply IH.
  - intros Hin. apply Hno. by right.
  - destruct e; simpl; try done. exfalso. apply Hno. by left.
Qed.

Lemma receive_history s c :
  Forall quiet (map (fun m => receive (payloadOf m)) (Control.resendHistory s c)).
Proof.
  unfold Control.resendHistory. destruct (Server.historyCache s !! c.1) as [h|]; [|constructor].
  induction h; constructor; [by right | done].
Qed.

Lemma receive_histories s l :
  Forall quiet (map (fun m => receive (payloadOf m)) (flat_map (Control.resendHistory s) l)).
Proof.
  induction l as [|c l IH]; simpl; [constructor|].
  rewrite map_app. apply Forall_app. split; [apply receive_history | done].
Qed.

Lemma receiveAll_isConnected sent : forall a,
  isConnected (receiveAll a sent) = isConnected a.
Proof.
  unfold receiveAll. induction sent as [|m sent IH]; intros a; [done|].
  simpl. rewrite IH.
  destruct m as [p|p]; destruct p as [e| |]; try done; by destruct e.
Qed.

End ClientFacts.

(** X13. A client that connects is shown the server's connection state.
    Whatever the server holds, the events it sends to a client that has
    just connected bring a client whose connection state is the initial
    one to the server's own: the client's flag equals
    [isWhatsAppConnected], and the login view shows Connected when
    WhatsApp is connected, the current QR code when it is not and there is
    one, and waits otherwise.  The probe method, the contact list and the
    replayed history in between do not disturb it. *)
Theorem greeting_syncs_client (s : Server.State) (a : Client.AppState)
    (Hfresh : Client.connectionState a
              = {| Client.whatsapp := false; Client.whatsappQr := None |}) :
  let a' := Client.receiveAll a (Control.onConnection s) in
  Client.whatsapp (Client.connectionState a') = Server.isWhatsAppConnected s /\
  Client.Login (Client.connectionState a')
    = Client.Login {| Client.whatsapp := Server.isWhatsAppConnected s;
                      Client.whatsappQr := Server.currentWhatsAppQr s |} /\
  Client.isConnected a' = Client.isConnected a.
Proof.
  cbv zeta. split; [|split]; [| |apply receiveAll_isConnected].
  - unfold Client.receiveAll, Control.onConnection.
    rewrite !map_app, !run_app.
    rewrite (run_quiet _ _ (receive_histories s _)).
    destruct a as [ic cs]. simpl in Hfresh. subst cs.
    destruct (Server.currentWhatsAppQr s) as [[|c r]|];
      destruct (Server.isWhatsAppConnected s); done.
  - unfold Client.receiveAll, Control.onConnection.
    rewrite !map_app, !run_app.
    rewrite (run_quiet _ _ (receive_histories s _)).
    destruct a as [ic cs]. simpl in Hfresh. subst cs.
    destruct (Server.currentWhatsAppQr s) as [[|c r]|];
      destruct (Server.isWhatsAppConnected s); done.
Qed.

(** A client opens the page while the server shows a QR code. *)
Lemma greeting_syncs_client_witness :
  Client.Login
    (Client.connectionState
       (Client.receiveAll (Client.on Client.initial Client.Connect)
          (Control.onConnection
             (Server.stateOf
                (Server.onConnectionUpdate Scenario.goodWorld
                   {| Server.connection := None; Server.lastDisconnectStatus := None;
                      Server.qr := Some "2@abc" |}
                   Worlds.withHistory)))))
  = Client.Login {| Client.whatsapp := true; Client.whatsappQr := Some "2@abc" |}.
Proof.
  refine (proj1 (proj2 (greeting_syncs_client _ (Client.on Client.initial Client.Connect) _))).
  reflexivity.
Defined.

(** X14. The login view follows the last decisive event.  After a
    connection-open the view is Connected until a disconnect, whatever
    QR codes arrive in between; after a disconnect it waits until a QR
    code or a connection-open arrives; and while WhatsApp is not
    connected, a QR code that arrives is the one shown, unless it is the
    empty string. *)
Theorem login_view_follows_events
    (a : Client.AppState) (pre post : list Client.SocketEvent) (q : string) :
  (Client.Disconnect ∉ post ->
   Client.Login (Client.connectionState
                   (Client.run a (pre ++ Client.ConnectionOpen :: post)))
   = Client.Connected) /\
  (Forall Client.quiet post ->
   Client.Login (Client.connectionState
                   (Client.run a (pre ++ Client.Disconnect :: post)))
   = Client.Waiting) /\
  (Forall Client.quiet post ->
   Client.whatsapp (Client.connectionState (Client.run a pre)) = false ->
   Client.Login (Client.connectionState (Client.run a (pre ++ Client.Qr q :: post)))
   = match q with
     | EmptyString => Client.Waiting
     | String _ _ => Client.QrCode q
     end).
Proof.
  repeat split.
  - intros Hno. rewrite run_app. simpl.
    unfold Client.Login. by rewrite run_no_disconnect.
  - intros Hq. rewrite run_app. simpl. by rewrite (run_quiet post _ Hq).
  - intros Hq Hw. rewrite run_app. simpl. rewrite (run_quiet post _ Hq).
    simpl. unfold Client.Login. simpl. rewrite Hw. by destruct q.
Qed.

(** A session: open, a stray QR code, a disconnect, a new QR code. *)
Lemma login_view_follows_events_witness :
  Client.Login
    (Client.connectionState
       (Client.run Client.initial
          ([Client.Connect; Client.Qr "1@x"] ++
           Client.ConnectionOpen :: [Client.Qr "2@y"; Client.Unhandled])))
  = Client.Connected /\
  Client.Login
    (Client.connectionState
       (Client.run Client.initial
          ([Client.Connect; Client.ConnectionOpen] ++
           Client.Disconnect :: [Client.Connect; Client.Unhandled])))
  = Client.Waiting /\
  Client.Login
    (Client.connectionState
       (Client.run Client.initial
          ([Client.Connect; Client.ConnectionOpen; Client.Disconnect] ++
           Client.Qr "3@z" :: [Client.Unhandled])))
  = Client.QrCode "3@z".
Proof.
  split; [|split].
  - refine (proj1 (login_view_follows_events Client.initial
                     [Client.Connect; Client.Qr "1@x"]
                     [Client.Qr "2@y"; Client.Unhandled] EmptyString) _).
    intros H. apply list_elem_of_In in H. simpl in H.
    destruct H as [H|[H|[]]]; discriminate.
  - refine (proj1 (proj2 (login_view_follows_events Client.initial
                     [Client.Connect; Client.ConnectionOpen]
                     [Client.Connect; Client.Unhandled] EmptyString)) _).
    repeat (constructor; [first [by left | by right]|]). constructor.
  - refine (proj2 (proj2 (login_view_follows_events Client.initial
                     [Client.Connect; Client.ConnectionOpen; Client.Disconnect]
                     [Client.Unhandled] "3@z")) _ _).
    + repeat (constructor; [first [by left | by right]|]). constructor.
    + reflexivity.
Defined.

(* ===================================================================== *)
(** ** The entries of the allow-list *)
(* ===================================================================== *)

Section TextFacts.

Import JsString Text.

Lemma split_length sep s : List.length (split sep s) = S (occurrences sep s).
Proof.
  induction s as [|c r IH]; [done|]. simpl.
  destruct (Ascii.eqb c sep); simpl; [by rewrite IH|].
  pose proof (split_not_nil sep r) as Hne.
  destruct (split sep r) as [|h t]; [done|]. simpl in *. done.
Qed.

Lemma split_no_sep sep s : Forall (fun p => contains sep p = false) (split sep s).
Proof.
  induction s as [|c r IH]; simpl; [by repeat constructor|].
  destruct (Ascii.eqb c sep) eqn:Hc.
  - by constructor.
  - destruct (split sep r) as [|h t]; simpl.
    + repeat constructor. simpl. by rewrite Hc.
    + inversion IH as [|? ? Hh Ht]; subst. constructor; [|done].
      simpl. by rewrite Hc.
Qed.

Lemma trimStart_contains c s : contains c s = false -> contains c (trimStart s) = false.
Proof.
  induction s as [|a r IH]; [done|]. simpl.
  intros [Ha Hr]%orb_false_iff.
  destruct (isWhiteSpace a); [by apply IH|]. simpl. by rewrite Ha, Hr.
Qed.

Lemma trimEnd_contains c s : contains c s = false -> contains c (trimEnd s) = false.
Proof.
  induction s as [|a r IH]; [done|]. simpl.
  intros [Ha Hr]%orb_false_iff. specialize (IH Hr).
  destruct (trimEnd r) as [|a' r'].
  - destruct (isWhiteSpace a); [done|]. simpl. by rewrite Ha.
  - simpl in *. by rewrite Ha, IH.
Qed.

Lemma trimStart_clean s : startsClean (trimStart s).
Proof.
  induction s as [|a r IH]; [done|]. simpl.
  destruct (isWhiteSpace a) eqn:Ha; [done|]. exact Ha.
Qed.

Lemma trimStart_of_clean s : startsClean s -> trimStart s = s.
Proof. destruct s as [|a r]; [done|]. simpl. by intros ->. Qed.

Lemma trimEnd_clean s : startsClean s -> startsClean (trimEnd s).
Proof.
  destruct s as [|a r]; [done|]. simpl. intros Ha.
  destruct (trimEnd r); [by rewrite Ha | done].
Qed.

Lemma trimEnd_idemp s : trimEnd (trimEnd s) = trimEnd s.
Proof.
  induction s as [|a r IH]; [done|]. simpl.
  destruct (trimEnd r) as [|a' r'] eqn:Hr.
  - destruct (isWhiteSpace a) eqn:Ha; [done|]. simpl. by rewrite Ha.
  - change (trimEnd (String a (String a' r'))) with
      (match trimEnd (String a' r') with
       | EmptyString => if isWhiteSpace a then EmptyString else String a EmptyString
       | String c' r'' => String a (String c' r'')
       end).
    by rewrite IH.
Qed.

Lemma trim_idemp s : trim (trim s) = trim s.
Proof.
  unfold trim.
  rewrite (trimStart_of_clean (trimEnd (trimStart s)))
    by apply trimEnd_clean, trimStart_clean.
  apply trimEnd_idemp.
Qed.

Lemma trim_contains c s : contains c s = false -> contains c (trim s) = false.
Proof. intros H. unfold trim. by apply trimEnd_contains, trimStart_contains. Qed.

Lemma split_ascii sep s :
  isAscii s = true -> Forall (fun p => isAscii p = true) (split sep s).
Proof.
  induction s as [|c r IH]; simpl; [by repeat constructor|].
  intros [Hc Hr]%andb_true_iff. specialize (IH Hr).
  destruct (Ascii.eqb c sep).
  - by constructor.
  - destruct (split sep r) as [|h t]; simpl.
    + repeat constructor. simpl. by rewrite Hc.
    + inversion IH as [|? ? Hh Ht]; subst. constructor; [|done].
      simpl. by rewrite Hc, Hh.
Qed.

Lemma trimStart_ascii s : isAscii s = true -> isAscii (trimStart s) = true.
Proof.
  induction s as [|a r IH]; [done|]. simpl.
  intros [Ha Hr]%andb_true_iff.
  destruct (isWhiteSpace a); [by apply IH|]. simpl. by rewrite Ha, Hr.
Qed.

Lemma trimEnd_ascii s : isAscii s = true -> isAscii (trimEnd s) = true.
Proof.
  induction s as [|a r IH]; [done|]. simpl.
  intros [Ha Hr]%andb_true_iff. specialize (IH Hr).
  destruct (trimEnd r) as [|a' r'].
  - destruct (isWhiteSpace a); [done|]. simpl. by rewrite Ha.
  - simpl in *. by rewrite Ha, IH.
Qed.

Lemma trim_ascii s : isAscii s = true -> isAscii (trim s) = true.
Proof. intros H. unfold trim. by apply trimEnd_ascii, trimStart_ascii. Qed.

Lemma trimmed_pieces raw :
  isAscii raw = true -> Forall Entry (map trim (split ","%char raw)).
Proof.
  intros Hraw. apply Forall_map, Forall_forall. intros p Hp.
  pose proof (split_no_sep ","%char raw) as Hsep.
  pose proof (split_ascii ","%char raw Hraw) as Hasc.
  rewrite Forall_forall in Hsep, Hasc.
  split; [by apply trim_ascii, Hasc|].
  split; [by apply trim_contains, Hsep | apply trim_idemp].
Qed.

End TextFacts.

(** X15. Who may log in (src/unnamed/part_001), for a value of
    ALLOWED_EMAILS made of ASCII characters (or none).  A profile without
    an e-mail address is refused with an error, whatever the allow-list.
    A login with an address is admitted exactly when the allow-list is
    empty or holds that very address (byte for byte: no trimming or case
    folding is applied to the address), and is refused as unauthorized
    otherwise.  Every entry of the allow-list is non-empty, ASCII, free
    of commas and free of white space at either end. *)
Theorem filtered_allow_list_decides (env : option string) (email : option string)
    (Hascii : Text.isAscii (JsString.orDefault env EmptyString) = true) :
  match email with
  | None | Some EmptyString =>
      AuthFiltered.verify env email = DoneError "No email found in Google profile"
  | Some e =>
      (AuthFiltered.verify env email = DoneUser e <->
       AuthFiltered.ALLOWED_EMAILS env = [] \/ e ∈ AuthFiltered.ALLOWED_EMAILS env) /\
      (AuthFiltered.verify env email = DoneRejected "Unauthorized email" <->
       AuthFiltered.ALLOWED_EMAILS env <> [] /\ e ∉ AuthFiltered.ALLOWED_EMAILS env)
  end /\
  Forall (fun x => x <> EmptyString /\ Text.Entry x) (AuthFiltered.ALLOWED_EMAILS env).
Proof.
  split.
  - destruct email as [[|c r]|]; try reflexivity.
    unfold AuthFiltered.verify, verifyWith.
    set (l := AuthFiltered.ALLOWED_EMAILS env).
    destruct (JsString.includes (String c r) l) eqn:Hin.
    + apply includes_spec in Hin. rewrite andb_false_r.
      split; split; try done; [by right | intros [_ H]; done].
    + assert (Hnin : String c r ∉ l).
      { intros H. apply includes_spec in H. congruence. }
      destruct l as [|x l']; simpl.
      * split; split; try done; [by left | by intros [H _]].
      * split; split; try done.
        intros [H|H]; done.
  - unfold AuthFiltered.ALLOWED_EMAILS. apply Forall_forall. intros x Hx.
    apply list_elem_of_filter in Hx as [Hlen Hx]. split.
    + intros ->. simpl in Hlen. lia.
    + pose proof (trimmed_pieces _ Hascii) as H.
      rewrite Forall_forall in H. by apply H.
Qed.

(** Two addresses with blanks around them and an empty entry. *)
Lemma filtered_allow_list_decides_witness :
  (AuthFiltered.verify (Some " Ada@x.org ,, bob@y.org") (Some "bob@y.org")
     = DoneUser "bob@y.org" <->
   AuthFiltered.ALLOWED_EMAILS (Some " Ada@x.org ,, bob@y.org") = [] \/
   "bob@y.org" ∈ AuthFiltered.ALLOWED_EMAILS (Some " Ada@x.org ,, bob@y.org")) /\
  (AuthFiltered.verify (Some " Ada@x.org ,, bob@y.org") (Some "bob@y.org")
     = DoneRejected "Unauthorized email" <->
   AuthFiltered.ALLOWED_EMAILS (Some " Ada@x.org ,, bob@y.org") <> [] /\
   "bob@y.org" ∉ AuthFiltered.ALLOWED_EMAILS (Some " Ada@x.org ,, bob@y.org")).
Proof.
  refine (proj1 (filtered_allow_list_decides (Some " Ada@x.org ,, bob@y.org")
                   (Some "bob@y.org") _)).
  reflexivity.
Defined.

(** X16. Who may log in (src/src/auth.ts), for a value of ALLOWED_EMAILS
    made of ASCII characters (or none).  The allow-list has one entry
    more than the variable has commas, each ASCII, free of commas and of
    white space at either end, possibly empty; a login with an address is
    admitted exactly when the address is one of the entries, so an empty
    entry admits nobody and an unset variable locks everybody out. *)
Theorem allow_list_decides (env : option string) (c : ascii) (r : string)
    (Hascii : Text.isAscii (JsString.orDefault env EmptyString) = true) :
  List.length (Auth.ALLOWED_EMAILS env)
    = S (Text.occurrences ","%char (JsString.orDefault env EmptyString)) /\
  Forall Text.Entry (Auth.ALLOWED_EMAILS env) /\
  (Auth.verify env (Some (String c r)) = DoneUser (String c r) <->
   String c r ∈ Auth.ALLOWED_EMAILS env) /\
  (Auth.verify env (Some (String c r)) = DoneRejected "Unauthorized email" <->
   String c r ∉ Auth.ALLOWED_EMAILS env) /\
  Auth.verify None (Some (String c r)) = DoneRejected "Unauthorized email".
Proof.
  split; [|split; [|split; [|split]]].
  - unfold Auth.ALLOWED_EMAILS. by rewrite length_map, split_length.
  - by apply trimmed_pieces.
  - unfold Auth.verify, verifyWith.
    rewrite (proj2 (Nat.ltb_lt _ _) (auth_list_never_empty env)). simpl.
    destruct (JsString.includes (String c r) (Auth.ALLOWED_EMAILS env)) eqn:Hin; simpl.
    + apply includes_spec in Hin. done.
    + split; [done|]. intros H. apply includes_spec in H. congruence.
  - unfold Auth.verify, verifyWith.
    rewrite (proj2 (Nat.ltb_lt _ _) (auth_list_never_empty env)). simpl.
    destruct (JsString.includes (String c r) (Auth.ALLOWED_EMAILS env)) eqn:Hin; simpl.
    + apply includes_spec in Hin. done.
    + split; [|done]. intros _ H. apply includes_spec in H. congruence.
  - reflexivity.
Qed.

(** Three entries, the second of them empty. *)
Lemma allow_list_decides_witness :
  List.length (Auth.ALLOWED_EMAILS (Some " Ada@x.org ,, bob@y.org")) = 3%nat /\
  Forall Text.Entry (Auth.ALLOWED_EMAILS (Some " Ada@x.org ,, bob@y.org")).
Proof.
  split.
  - refine (proj1 (allow_list_decides (Some " Ada@x.org ,, bob@y.org")
                     "b"%char "ob@y.org" _)).
    reflexivity.
  - refine (proj1 (proj2 (allow_list_decides (Some " Ada@x.org ,, bob@y.org")
                            "b"%char "ob@y.org" _))).
    reflexivity.
Defined.

(** Addresses are compared as they are: another case, or a space in the
    profile's address, is another address. *)
Example allow_list_is_literal :
  AuthFiltered.verify (Some " Ada@x.org , bob@y.org") (Some "Ada@x.org")
    = DoneUser "Ada@x.org" /\
  AuthFiltered.verify (Some " Ada@x.org , bob@y.org") (Some "ada@x.org")
    = DoneRejected "Unauthorized email" /\
  AuthFiltered.verify (Some " Ada@x.org , bob@y.org") (Some "bob@y.org ")
    = DoneRejected "Unauthorized email".
Proof. repeat split; vm_compute; reflexivity. Qed.

(* ===================================================================== *)
(** ** What a connecting client is sent *)
(* ===================================================================== *)

Section GreetingFacts.

Import Server Control.

Lemma trackedList_spec s j p :
  (j, p) ∈ trackedList s <-> exists e, trackers s !! j = Some e /\ platform e = p.
Proof.
  unfold trackedList. rewrite list_elem_of_fmap. split.
  - intros [[j' e] [Heq Hin]]. cbn in Heq. inversion Heq; subst.
    apply elem_of_map_to_list in Hin. exists e. split; [done|].
    by destruct p, (platform e).
  - intros [e [He <-]]. exists (j, e). split; [done|].
    by apply elem_of_map_to_list.
Qed.

Lemma trackedList_ids s : (trackedList s).*1 = (map_to_list (trackers s)).*1.
Proof.
  unfold trackedList. rewrite <- list_fmap_compose. by apply list_fmap_ext.
Qed.

Lemma resent_spec s d l :
  ToClient (Event (EvTrackerUpdate d true)) ∈ flat_map (resendHistory s) l <->
  exists c h, c ∈ l /\ historyCache s !! c.1 = Some h /\ d ∈ h.
Proof.
  rewrite list_elem_of_In, in_flat_map. split.
  - intros [c [Hc Hd]]. apply list_elem_of_In in Hc. unfold resendHistory in Hd.
    destruct (historyCache s !! c.1) as [h|] eqn:Hh; [|done].
    apply in_map_iff in Hd as [d' [Heq Hd']]. injection Heq as Heq. subst d'.
    exists c, h. split; [done|]. split; [done|]. by apply list_elem_of_In.
  - intros (c & h & Hc & Hh & Hd). exists c. split; [by apply list_elem_of_In|].
    unfold resendHistory. rewrite Hh. apply in_map_iff. exists d.
    split; [done|]. by apply list_elem_of_In.
Qed.

Lemma resent_only_history s l x :
  x ∈ flat_map (resendHistory s) l ->
  exists d, x = ToClient (Event (EvTrackerUpdate d true)).
Proof.
  rewrite list_elem_of_In, in_flat_map. intros [c [_ Hx]].
  unfold resendHistory in Hx. destruct (historyCache s !! c.1); [|done].
  apply in_map_iff in Hx as [d [<- _]]. by exists d.
Qed.

Lemma onConnection_spec s x :
  x ∈ onConnection s <->
  (exists q, x = ToClient (Event (EvQr q)) /\ currentWhatsAppQr s = Some q /\ q <> EmptyString) \/
  (x = ToClient (Event EvConnectionOpen) /\ isWhatsAppConnected s = true) \/
  x = ToClient (ProbeMethodIs (globalProbeMethod s)) \/
  x = ToClient (TrackedContacts (trackedList s)) \/
  x ∈ flat_map (resendHistory s) (trackedList s).
Proof.
  unfold onConnection. rewrite !elem_of_app, !elem_of_cons, elem_of_nil.
  split.
  - intros [H|[H|[[H|[H|[]]]|H]]]; [| |by eauto 10..].
    + left. destruct (currentWhatsAppQr s) as [[|c r]|]; try by apply elem_of_nil in H.
      apply list_elem_of_singleton in H. by exists (String c r).
    + right; left. destruct (isWhatsAppConnected s); [|by apply elem_of_nil in H].
      by apply list_elem_of_singleton in H.
  - intros [[q (-> & Hq & Hne)]|[[-> Hc]|[->|[->|H]]]]; [| |by eauto 10..].
    + left. rewrite Hq. destruct q; [done|]. by apply list_elem_of_singleton.
    + right; left. rewrite Hc. by apply list_elem_of_singleton.
Qed.

End GreetingFacts.

(** X17. What a connecting client is sent.  The contact list sent to a
    client that connects names exactly the contacts of the registry, each
    once.  A data point is replayed to it exactly when it is cached under
    a contact of the registry: the history of a contact that is not
    tracked stays in the cache and is not sent.  Every replayed data
    point is marked as history, and nothing is sent to the other
    clients. *)
Theorem greeting_replays_tracked_history (s : Server.State) :
  (forall l, Control.ToClient (Control.TrackedContacts l) ∈ Control.onConnection s <->
             l = Control.trackedList s) /\
  NoDup (Control.trackedList s).*1 /\
  (forall j p, (j, p) ∈ Control.trackedList s <->
               exists e, Server.trackers s !! j = Some e /\ Server.platform e = p) /\
  (forall d, Control.ToClient (Control.Event (Server.EvTrackerUpdate d true))
               ∈ Control.onConnection s <->
             exists j e h, Server.trackers s !! j = Some e /\
                           Server.historyCache s !! j = Some h /\ d ∈ h) /\
  (forall d, Control.ToClient (Control.Event (Server.EvTrackerUpdate d false))
               ∉ Control.onConnection s) /\
  (forall p, Control.ToAll p ∉ Control.onConnection s).
Proof.
  split; [|split; [|split; [|split; [|split]]]].
  - intros l. rewrite onConnection_spec. split.
    + intros [[q [H _]]|[[H _]|[H|[H|H]]]]; try discriminate.
      * by injection H.
      * apply resent_only_history in H as [d H]. discriminate.
    + intros ->. auto.
  - rewrite trackedList_ids. apply NoDup_fst_map_to_list.
  - apply trackedList_spec.
  - intros d. rewrite onConnection_spec. split.
    + intros [[q [H _]]|[[H _]|[H|[H|H]]]]; try discriminate.
      apply resent_spec in H as ([j p] & h & Hc & Hh & Hd).
      apply trackedList_spec in Hc as [e [He _]]. by exists j, e, h.
    + intros (j & e & h & He & Hh & Hd). do 4 right.
      apply resent_spec. exists (j, Server.platform e), h.
      split; [|done]. apply trackedList_spec. by exists e.
  - intros d. rewrite onConnection_spec.
    intros [[q [H _]]|[[H _]|[H|[H|H]]]]; try discriminate.
    apply resent_only_history in H as [d' H]. discriminate.
  - intros p. rewrite onConnection_spec.
    intros [[q [H _]]|[[H _]|[H|[H|H]]]]; try discriminate.
    apply resent_only_history in H as [d' H]. discriminate.
Qed.

(* ===================================================================== *)
(** ** The FAQ accordion *)
(* ===================================================================== *)

Section HelpFacts.

Import Help.

Lemma clicks_snoc l i : clicks (l ++ [i]) = toggle (clicks l) i.
Proof. unfold clicks. by rewrite fold_left_app. Qed.

Lemma clicks_open l i : clicks l = Some i -> last l = Some i.
Proof.
  destruct l as [|x l] using rev_ind; [done|].
  rewrite clicks_snoc, last_snoc. unfold toggle.
  destruct (decide (clicks l = Some x)); [done|]. by intros [= ->].
Qed.

End HelpFacts.

(** X18. The FAQ accordion.  After any clicks that do not end on entry
    [i], clicking [i] an odd number of times leaves exactly [i] open and
    clicking it an even number of times leaves every entry closed: the
    second click on an entry closes it, and it does not bring back the
    entry that was open before. *)
Theorem faq_accordion (l : list nat) (i n : nat) (Hlast : last l <> Some i) :
  Help.clicks (l ++ repeat i (S n)) = if Nat.odd (S n) then Some i else None.
Proof.
  assert (Hl : Help.clicks l <> Some i) by (intros H; by apply clicks_open in H).
  induction n as [|n IH].
  - simpl. rewrite clicks_snoc. unfold Help.toggle.
    destruct (decide (Help.clicks l = Some i)); done.
  - change (repeat i (S (S n))) with (i :: repeat i (S n)).
    rewrite repeat_cons, app_assoc, clicks_snoc, IH.
    rewrite (Nat.odd_succ (S n)), <- Nat.negb_odd.
    unfold Help.toggle. destruct (Nat.odd (S n)); cbn [negb].
    + by rewrite decide_True.
    + by rewrite decide_False.
Qed.

(** Entry 2 is open, then entry 0 is clicked twice. *)
Lemma faq_accordion_witness : Help.clicks ([1; 2] ++ repeat 0 2) = None.
Proof.
  refine (faq_accordion [1; 2] 0 1 _). simpl. discriminate.
Defined.

(* ===================================================================== *)
(** ** When the duplicate guard works *)
(* ===================================================================== *)

Section DuplicateFacts.

Import Server Track Lookup.

(** After an add that WhatsApp answered with the derived identity
    itself, every spelling of the number is turned away as a duplicate,
    and nothing changes.  (When WhatsApp answers with another jid the
    guard does not see the contact.) *)
Lemma second_spelling_rejected w w2 s data n2 res :
  trackers s !! targetJidOf (numberOf data) = None ->
  answer w s (numberOf data) = Found res ->
  jid res = targetJidOf (numberOf data) ->
  JsString.SameDigits (numberOf data) n2 ->
  let s' := stateOf (onAddContact w data s) in
  startTrackingWhatsApp w2 n2 true s'
  = (Normal tt, s',
     [IoEmit (EvError (targetJidOf n2) "Already tracking this contact")]).
Proof.
  intros Hnew Hfound Hjid Hsame s'.
  apply (startTracking_duplicate w2 n2 s'
           {| tracker := newRef s; platform := whatsapp |}).
  rewrite <- (targetJidOf_same _ _ Hsame), <- Hjid.
  subst s'. unfold onAddContact. rewrite (startTrackingWhatsApp_new _ _ _ _ Hnew).
  pose proof (verifyAndTrack_state w (numberOf data) true s) as H.
  cbv zeta in H. rewrite Hfound in H.
  destruct H as [-> | ->]; simpl; apply lookup_insert_eq.
Qed.

End DuplicateFacts.
